(** * Customer Information Management System: validation and persistence

    A shallow embedding of [fridayproject5.py]: the six field validators,
    [validate_all], [insert_customer], [init_db] and the submit handler
    [App.on_submit], together with the parts of the Python runtime they
    call ([str.strip], [re], [datetime.strptime], [sqlite3]).

    Conventions.
    - A Python [str] is a [string]; a character is an [ascii], read as the
      code point 0..255 (the Latin-1 block).  On these code points
      [str.isspace] and the regular-expression classes [\s], [\d] are the
      predicates [isspace] and [isdecimal] below.
    - A [dict] with string keys is a [gmap string string]; subscripting a
      missing key raises [KeyError].
    - Exceptions are values of [exn]; a computation that may raise returns
      a [result].
    - The SQLite file is a value of type [Database] that is passed in and
      returned; what the operating system and the clock decide (a failing
      write, the current time) is the argument [Env]. *)

From Stdlib Require Import ZArith NArith Ascii String List Bool Sorted Lia.
From stdpp Require Import base option strings gmap.

Local Open Scope string_scope.
Local Open Scope Z_scope.

(** ** Exceptions and results *)

Inductive exn : Type :=
| KeyError (key : string)
| ValueError (msg : string)
| OperationalError (msg : string).

Inductive result (A : Type) : Type :=
| Ok (a : A)
| Raise (e : exn).
Arguments Ok {A} a.
Arguments Raise {A} e.

#[global] Instance result_ret : MRet result := fun A a => Ok a.
#[global] Instance result_bind : MBind result := fun A B f m =>
  match m with
  | Ok a => f a
  | Raise e => Raise e
  end.

(** What a Python function hands back to its caller. *)
Inductive pyval : Type :=
| PyNone
| PyInt (z : Z).

(** [str(e)] for the exceptions above. *)
Definition str_exn (e : exn) : string :=
  match e with
  | KeyError k => "'" ++ k ++ "'"
  | ValueError m => m
  | OperationalError m => m
  end.

(** ** Characters and [str.strip] *)

Definition code (c : ascii) : N := N_of_ascii c.

(** [str.isspace] on one character, and the class [\s]: TAB..CR, FS..US,
    SPACE, NEL and NBSP. *)
Definition isspace (c : ascii) : bool :=
  let n := code c in
  ((9 <=? n) && (n <=? 13) || (28 <=? n) && (n <=? 31)
   || (n =? 32) || (n =? 133) || (n =? 160))%N.

(** The class [\d]. *)
Definition isdecimal (c : ascii) : bool :=
  let n := code c in ((48 <=? n) && (n <=? 57))%N.

Fixpoint lstrip (s : string) : string :=
  match s with
  | EmptyString => EmptyString
  | String c s' => if isspace c then lstrip s' else s
  end.

Fixpoint rstrip (s : string) : string :=
  match s with
  | EmptyString => EmptyString
  | String c s' =>
      match rstrip s' with
      | EmptyString => if isspace c then EmptyString else String c EmptyString
      | r => String c r
      end
  end.

(** [s.strip()] *)
Definition strip (s : string) : string := rstrip (lstrip s).

Definition first_char (s : string) : option ascii :=
  match s with
  | EmptyString => None
  | String c _ => Some c
  end.

Fixpoint last_char (s : string) : option ascii :=
  match s with
  | EmptyString => None
  | String c EmptyString => Some c
  | String _ s' => last_char s'
  end.

(** No whitespace at either end (the empty string qualifies). *)
Definition trimmed (s : string) : Prop :=
  (forall c, first_char s = Some c -> isspace c = false) /\
  (forall c, last_char s = Some c -> isspace c = false).

(** ** Regular expressions

    The fragment of [re] used by the program and by [_strptime]: character
    classes, a greedy [+] on a class, concatenation, ordered alternation,
    named groups, [^] and [$].  [rmatch] is the backtracking matcher: the
    first alternative that lets the rest of the pattern succeed wins. *)

Inductive regex : Type :=
| Class (p : ascii -> bool)
| ClassPlus (p : ascii -> bool)
| Cat (r1 r2 : regex)
| Alt (r1 r2 : regex)
| Group (name : string) (r : regex)
| Bos
| Eos.

Definition groups := list (string * string).

(** Prefix of [s] of length [n]. *)
Fixpoint take_str (n : nat) (s : string) : string :=
  match n, s with
  | S n', String c s' => String c (take_str n' s')
  | _, _ => EmptyString
  end.

Section Matcher.
Context {A : Type}.

(** Zero or more characters of class [p], longest first. *)
Fixpoint rstar (p : ascii -> bool) (s : string) (pos : nat)
         (k : string -> nat -> option A) : option A :=
  match s with
  | String c s' =>
      if p c then
        match rstar p s' (S pos) k with
        | Some a => Some a
        | None => k s pos
        end
      else k s pos
  | EmptyString => k s pos
  end.

(** [rmatch r s pos g k]: match [r] against the rest [s] of the subject,
    which starts at offset [pos]; [k] continues with what is left. *)
Fixpoint rmatch (r : regex) (s : string) (pos : nat) (g : groups)
         (k : string -> nat -> groups -> option A) : option A :=
  match r with
  | Class p =>
      match s with
      | String c s' => if p c then k s' (S pos) g else None
      | EmptyString => None
      end
  | ClassPlus p =>
      match s with
      | String c s' =>
          if p c then rstar p s' (S pos) (fun s'' pos'' => k s'' pos'' g)
          else None
      | EmptyString => None
      end
  | Cat r1 r2 =>
      rmatch r1 s pos g (fun s1 pos1 g1 => rmatch r2 s1 pos1 g1 k)
  | Alt r1 r2 =>
      match rmatch r1 s pos g k with
      | Some a => Some a
      | None => rmatch r2 s pos g k
      end
  | Group name r1 =>
      rmatch r1 s pos g
        (fun s1 pos1 g1 => k s1 pos1 ((name, take_str (pos1 - pos) s) :: g1))
  | Bos => if Nat.eqb pos 0 then k s pos g else None
  | Eos =>
      match s with
      | EmptyString => k s pos g
      | String c EmptyString =>
          if Ascii.eqb c "010" then k s pos g else None
      | _ => None
      end
  end.
End Matcher.

(** [pattern.match(s)]: the offset where the match ends, and its groups. *)
Definition re_match (r : regex) (s : string) : option (nat * groups) :=
  rmatch r s 0%nat [] (fun _ pos g => Some (pos, g)).

(** [re.sub(p, repl, s)] for a pattern [p] that is one character class. *)
Fixpoint re_sub_class (p : ascii -> bool) (repl : string) (s : string) : string :=
  match s with
  | EmptyString => EmptyString
  | String c s' =>
      if p c then repl ++ re_sub_class p repl s'
      else String c (re_sub_class p repl s')
  end.

Definition chr (c : ascii) : regex := Class (Ascii.eqb c).
Definition rng (a b : ascii) : regex :=
  Class (fun c => (code a <=? code c)%N && (code c <=? code b)%N).
Definition digit : regex := Class isdecimal.
(** [[^@\s]] *)
Definition not_at_space (c : ascii) : bool :=
  negb (Ascii.eqb c "@" || isspace c).

(** ** [datetime.strptime(s, "%Y-%m-%d")]

    [_strptime] turns the format into a regular expression, one named
    group per directive, matches it at the start of the string, rejects
    text left over after the match, converts the groups with [int] and
    builds a [date], which checks the calendar. *)

(** [(?P<Y>\d\d\d\d)] *)
Definition re_Y : regex := Group "Y" (Cat digit (Cat digit (Cat digit digit))).

(** [(?P<m>1[0-2]|0[1-9]|[1-9])] *)
Definition re_m : regex :=
  Group "m" (Alt (Cat (chr "1") (rng "0" "2"))
            (Alt (Cat (chr "0") (rng "1" "9"))
                 (rng "1" "9"))).

(** [(?P<d>3[0-1]|[1-2]\d|0[1-9]|[1-9]| [1-9])] *)
Definition re_d : regex :=
  Group "d" (Alt (Cat (chr "3") (rng "0" "1"))
            (Alt (Cat (rng "1" "2") digit)
            (Alt (Cat (chr "0") (rng "1" "9"))
            (Alt (rng "1" "9")
                 (Cat (chr " ") (rng "1" "9")))))).

(** The compiled pattern of the format [%Y-%m-%d]. *)
Definition format_regex : regex :=
  Cat re_Y (Cat (chr "-") (Cat re_m (Cat (chr "-") re_d))).

(** [found.groupdict()[name]] *)
Fixpoint group (g : groups) (name : string) : string :=
  match g with
  | [] => EmptyString
  | (n, v) :: g' => if String.eqb n name then v else group g' name
  end.

Definition digit_value (c : ascii) : Z := Z.of_N (code c) - 48.

Fixpoint int_digits (acc : Z) (s : string) : option Z :=
  match s with
  | EmptyString => Some acc
  | String c s' =>
      if isdecimal c then int_digits (10 * acc + digit_value c) s' else None
  end.

(** [int(s)] on an unsigned decimal literal, blanks around it ignored. *)
Definition int (s : string) : result Z :=
  match strip s with
  | EmptyString => Raise (ValueError "invalid literal for int() with base 10")
  | t =>
      match int_digits 0 t with
      | Some z => Ok z
      | None => Raise (ValueError "invalid literal for int() with base 10")
      end
  end.

Definition MINYEAR : Z := 1.
Definition MAXYEAR : Z := 9999.

Definition DAYS_IN_MONTH : list Z :=
  [-1; 31; 28; 31; 30; 31; 30; 31; 31; 30; 31; 30; 31].

Definition is_leap (year : Z) : bool :=
  (year mod 4 =? 0) && (negb (year mod 100 =? 0) || (year mod 400 =? 0)).

Definition days_in_month (year month : Z) : Z :=
  if (month =? 2) && is_leap year then 29
  else nth (Z.to_nat month) DAYS_IN_MONTH 0.

(** [datetime.date(year, month, day)] with its range checks. *)
Definition date (year month day : Z) : result (Z * Z * Z) :=
  if negb ((MINYEAR <=? year) && (year <=? MAXYEAR)) then
    Raise (ValueError "year is out of range")
  else if negb ((1 <=? month) && (month <=? 12)) then
    Raise (ValueError "month must be in 1..12")
  else if negb ((1 <=? day) && (day <=? days_in_month year month)) then
    Raise (ValueError "day is out of range for month")
  else Ok (year, month, day).

Definition strptime (data_string : string) : result (Z * Z * Z) :=
  match re_match format_regex data_string with
  | None => Raise (ValueError "time data does not match format")
  | Some (found_end, found_dict) =>
      if negb (Nat.eqb (String.length data_string) found_end) then
        Raise (ValueError "unconverted data remains")
      else
        year ← int (group found_dict "Y");
        month ← int (group found_dict "m");
        day ← int (group found_dict "d");
        date year month day
  end.

(** ** Validation helpers *)

(** [^[^@\s]+@[^@\s]+\.[^@\s]+$] *)
Definition EMAIL_RE : regex :=
  Cat Bos (Cat (ClassPlus not_at_space) (Cat (chr "@")
      (Cat (ClassPlus not_at_space) (Cat (chr ".")
      (Cat (ClassPlus not_at_space) Eos))))).

Definition validate_name (name : string) : bool :=
  (0 <? String.length (strip name))%nat.

(** [try: strptime(...); return True / except ValueError: return False];
    [strptime_raises_ValueError] below shows that no other exception can
    escape. *)
Definition validate_birthday (bday : string) : bool :=
  match strptime (strip bday) with
  | Ok _ => true
  | Raise _ => false
  end.

Definition validate_email (email : string) : bool :=
  match re_match EMAIL_RE (strip email) with
  | Some _ => true
  | None => false
  end.

Definition validate_phone (phone : string) : bool :=
  let digits := re_sub_class (fun c => negb (isdecimal c)) "" phone in
  (10 <=? String.length digits)%nat.

Definition validate_address (addr : string) : bool :=
  (0 <? String.length (strip addr))%nat.

Definition validate_preferred_contact (choice : string) : bool :=
  existsb (fun x => String.eqb choice x) ["Email"; "Phone"; "Mail"].

(** [d[key]] *)
Definition getitem (d : gmap string string) (key : string) : result string :=
  match d !! key with
  | Some v => Ok v
  | None => Raise (KeyError key)
  end.

Definition validate_all (fields : gmap string string) : result (bool * string) :=
  name ← getitem fields "name";
  if negb (validate_name name) then
    mret (false, "Please enter the customer's name.")
  else
  birthday ← getitem fields "birthday";
  if negb (validate_birthday birthday) then
    mret (false, "Birthday must be in YYYY-MM-DD format (e.g., 2001-09-15).")
  else
  email ← getitem fields "email";
  if negb (validate_email email) then
    mret (false, "Please enter a valid email address.")
  else
  phone ← getitem fields "phone";
  if negb (validate_phone phone) then
    mret (false, "Please enter a valid phone number with at least 10 digits.")
  else
  address ← getitem fields "address";
  if negb (validate_address address) then
    mret (false, "Please enter the address.")
  else
  preferred_contact ← getitem fields "preferred_contact";
  if negb (validate_preferred_contact preferred_contact) then
    mret (false, "Please choose a preferred contact method.")
  else mret (true, "").

(** ** The SQLite store

    The table [customers] created by [init_db]:
    [id INTEGER PRIMARY KEY AUTOINCREMENT], six [TEXT NOT NULL] columns and
    [created_at TIMESTAMP DEFAULT CURRENT_TIMESTAMP]. *)

Module customers.
Record row : Type := mk {
  id : Z;
  name : string;
  birthday : string;
  email : string;
  phone : string;
  address : string;
  preferred_contact : string;
  created_at : string
}.
End customers.

(** [rows]: the table's content in insertion order; [seq]: the entry of
    the table in [sqlite_sequence], the largest id ever assigned. *)
Record Table : Type := { rows : list customers.row; seq : Z }.

(** The database file; [None] while the table does not exist. *)
Definition Database : Type := option Table.

Inductive sqlite_fault : Type := ConnectFault | ExecuteFault | CommitFault.

(** What the environment decides for one call: a step of [sqlite3] that
    fails (storage unavailable, disk full, lock held), and the clock. *)
Record Env : Type := {
  fault : option (sqlite_fault * string);
  CURRENT_TIMESTAMP : string
}.

(** The largest rowid, 2^63 - 1. *)
Definition MAX_ROWID : Z := 9223372036854775807.

Definition max_rowid (l : list customers.row) : Z :=
  fold_right (fun r m => Z.max (customers.id r) m) 0 l.

(** AUTOINCREMENT: one more than the largest id the table ever held. *)
Definition next_rowid (t : Table) : Z := Z.max (seq t) (max_rowid (rows t)) + 1.

Definition raises (env : Env) (step : sqlite_fault) : result unit :=
  match fault env with
  | Some (ConnectFault, msg) =>
      match step with ConnectFault => Raise (OperationalError msg) | _ => Ok tt end
  | Some (ExecuteFault, msg) =>
      match step with ExecuteFault => Raise (OperationalError msg) | _ => Ok tt end
  | Some (CommitFault, msg) =>
      match step with CommitFault => Raise (OperationalError msg) | _ => Ok tt end
  | None => Ok tt
  end.

(** [sqlite3.connect(DB_PATH)] *)
Definition connect (env : Env) : result unit := raises env ConnectFault.

(** [conn.commit()] *)
Definition commit (env : Env) : result unit := raises env CommitFault.

(** [cur.execute("CREATE TABLE IF NOT EXISTS customers (...)")]: the
    content of the file once the statement is committed. *)
Definition execute_create (env : Env) (db : Database) : result Database :=
  _ ← raises env ExecuteFault;
  match db with
  | Some t => mret (Some t)
  | None => mret (Some {| rows := []; seq := 0 |})
  end.

(** [cur.execute("INSERT INTO customers (...) VALUES (?, ?, ?, ?, ?, ?)", params)]:
    the content of the file once the statement is committed. *)
Definition execute_insert (env : Env) (db : Database)
    (params : string * string * string * string * string * string)
    : result Database :=
  _ ← raises env ExecuteFault;
  match db with
  | None => Raise (OperationalError "no such table: customers")
  | Some t =>
      if MAX_ROWID <=? Z.max (seq t) (max_rowid (rows t)) then
        Raise (OperationalError "database or disk is full")
      else
        let '(name, birthday, email, phone, address, preferred_contact) := params in
        let r := customers.mk (next_rowid t) name birthday email phone address
                   preferred_contact (CURRENT_TIMESTAMP env) in
        mret (Some {| rows := rows t ++ [r]; seq := next_rowid t |})
  end.

Definition init_db (env : Env) (db : Database) : Database * result pyval :=
  match connect env with
  | Raise e => (db, Raise e)
  | Ok _ =>
      match execute_create env db with
      | Raise e => (db, Raise e)
      | Ok pending =>
          match commit env with
          | Raise e => (db, Raise e)
          | Ok _ => (pending, Ok PyNone)
          end
      end
  end.

(** ** Persistence *)

Definition insert_customer (env : Env) (fields : gmap string string)
    (db : Database) : Database * result pyval :=
  match connect env with
  | Raise e => (db, Raise e)
  | Ok _ =>
      let params :=
        name ← getitem fields "name";
        birthday ← getitem fields "birthday";
        email ← getitem fields "email";
        phone ← getitem fields "phone";
        address ← getitem fields "address";
        preferred_contact ← getitem fields "preferred_contact";
        mret (strip name, strip birthday, strip email, strip phone,
              strip address, preferred_contact) in
      match params with
      | Raise e => (db, Raise e)
      | Ok params =>
          match execute_insert env db params with
          | Raise e => (db, Raise e)
          | Ok pending =>
              match commit env with
              | Raise e => (db, Raise e)
              | Ok _ => (pending, Ok PyNone)
              end
          end
      end
  end.

(** ** The form *)

(** The widgets' contents. *)
Record App : Type := {
  name_var : string;
  bday_var : string;
  email_var : string;
  phone_var : string;
  address_text : string;
  pref_var : string
}.

Inductive messagebox : Type :=
| showerror (title message : string)
| showinfo (title message : string).

Definition newline : string := String "010" EmptyString.

(** [address_text.get("1.0", "end")]: the text and the newline Tk ends it
    with. *)
Definition address_text_get (self : App) : string := address_text self ++ newline.

Definition get_form_data (self : App) : gmap string string :=
  <["name" := name_var self]>
  (<["birthday" := bday_var self]>
  (<["email" := email_var self]>
  (<["phone" := phone_var self]>
  (<["address" := strip (address_text_get self)]>
  (<["preferred_contact" := pref_var self]> ∅))))).

Definition clear_form (self : App) : App :=
  {| name_var := ""; bday_var := ""; email_var := ""; phone_var := "";
     address_text := ""; pref_var := "Email" |}.

(** The handler of the Submit button: the form afterwards, the database
    afterwards, and the dialog shown (or the exception that escapes). *)
Definition on_submit (env : Env) (self : App) (db : Database)
    : App * Database * result messagebox :=
  let data := get_form_data self in
  match validate_all data with
  | Raise e => (self, db, Raise e)
  | Ok (valid, msg) =>
      if negb valid then (self, db, Ok (showerror "Validation Error" msg))
      else
        match insert_customer env data db with
        | (db', Ok _) =>
            (clear_form self, db',
             Ok (showinfo "Success" "Customer information saved."))
        | (db', Raise e) =>
            (self, db',
             Ok (showerror "Database Error"
                   ("Could not save data:" ++ newline ++ str_exn e)))
        end
  end.

(** ** Sample data *)

Definition mkfields (name birthday email phone address preferred_contact : string)
    : gmap string string :=
  <["name" := name]> (<["birthday" := birthday]> (<["email" := email]>
  (<["phone" := phone]> (<["address" := address]>
  (<["preferred_contact" := preferred_contact]> ∅))))).

Definition ana : gmap string string :=
  mkfields "Ana Li" "2001-09-15" "a@b.co" "(555) 123-4567" "1 Main St" "Email".

Definition env_ok : Env := {| fault := None; CURRENT_TIMESTAMP := "2024-05-01 10:00:00" |}.

Definition empty_table : Table := {| rows := []; seq := 0 |}.

(** A mapping whose six fields all fail. *)
Definition bad : gmap string string :=
  mkfields "" "2021-13-40" "not-an-email" "555-1234" " " "Fax".

(** Valid fields with blanks around them. *)
Definition padded : gmap string string :=
  mkfields "  Ana Li " " 2001-09-15" "a@b.co " " (555) 123-4567 "
    " 1 Main St " "Email".

(** A mapping that has nothing but a blank name. *)
Definition only_name : gmap string string := <["name" := " "]> ∅.

Definition form_ana : App :=
  {| name_var := " Ana Li"; bday_var := "2001-09-15"; email_var := "a@b.co";
     phone_var := "(555) 123-4567"; address_text := "1 Main St";
     pref_var := "Email" |}.

Definition form_bad : App :=
  {| name_var := "Ana Li"; bday_var := "2021-13-40"; email_var := "not-an-email";
     phone_var := "555-1234"; address_text := "1 Main St"; pref_var := "Email" |}.

(** Fields whose preferred contact has blanks around it. *)
Definition spaced_contact : gmap string string :=
  mkfields "Ana Li" "2001-09-15" "a@b.co" "(555) 123-4567" "1 Main St" " Mail ".

(** ** Notions used in the statements *)

(** The six fields in form order: key, validator, and the reason
    [validate_all] gives when the validator fails. *)
Definition field_checks : list (string * (string -> bool) * string) :=
  [ ("name", validate_name, "Please enter the customer's name.");
    ("birthday", validate_birthday,
       "Birthday must be in YYYY-MM-DD format (e.g., 2001-09-15).");
    ("email", validate_email, "Please enter a valid email address.");
    ("phone", validate_phone,
       "Please enter a valid phone number with at least 10 digits.");
    ("address", validate_address, "Please enter the address.");
    ("preferred_contact", validate_preferred_contact,
       "Please choose a preferred contact method.") ].

(** The mapping has the field of [chk], and the validator accepts it. *)
Definition passes (fields : gmap string string)
    (chk : string * (string -> bool) * string) : Prop :=
  exists v, fields !! chk.1.1 = Some v /\ chk.1.2 v = true.

(** The mapping has the field of [chk], and the validator rejects it. *)
Definition fails (fields : gmap string string)
    (chk : string * (string -> bool) * string) : Prop :=
  exists v, fields !! chk.1.1 = Some v /\ chk.1.2 v = false.

(** The characters of [s] that satisfy [p], in order. *)
Fixpoint filter_chars (p : ascii -> bool) (s : string) : string :=
  match s with
  | EmptyString => EmptyString
  | String c s' => if p c then String c (filter_chars p s') else filter_chars p s'
  end.

Fixpoint all_chars (p : ascii -> bool) (s : string) : bool :=
  match s with
  | EmptyString => true
  | String c s' => p c && all_chars p s'
  end.

(** All six columns a user supplies pass their validators. *)
Definition row_valid (r : customers.row) : Prop :=
  validate_name (customers.name r) = true /\
  validate_birthday (customers.birthday r) = true /\
  validate_email (customers.email r) = true /\
  validate_phone (customers.phone r) = true /\
  validate_address (customers.address r) = true /\
  validate_preferred_contact (customers.preferred_contact r) = true.

Definition ids (db : Database) : list Z :=
  match db with
  | Some t => map customers.id (rows t)
  | None => []
  end.

(** The id of the row a successful INSERT has just written
    ([cur.lastrowid], which [insert_customer] does not read). *)
Definition lastrowid (db : Database) : option Z :=
  match db with
  | Some t => last (map customers.id (rows t))
  | None => None
  end.

(** A sequence of [insert_customer] calls on one store: the store at the
    end and the ids assigned by the calls that succeeded, in call order. *)
Fixpoint insert_all (calls : list (Env * gmap string string)) (db : Database)
    : Database * list Z :=
  match calls with
  | [] => (db, [])
  | (env, fields) :: rest =>
      let '(db1, r) := insert_customer env fields db in
      let '(db2, assigned) := insert_all rest db1 in
      (db2,
       match r, lastrowid db1 with
       | Ok _, Some i => i :: assigned
       | _, _ => assigned
       end)
  end.

(** The six values of a mapping that has all six keys. *)
Definition has_fields (fields : gmap string string)
    (n b e p a c : string) : Prop :=
  fields !! "name" = Some n /\ fields !! "birthday" = Some b /\
  fields !! "email" = Some e /\ fields !! "phone" = Some p /\
  fields !! "address" = Some a /\ fields !! "preferred_contact" = Some c.

(** [stored] is [caller] with blanks taken off the two ends and nothing
    else changed. *)
Definition whitespace_removed (caller stored : string) : Prop :=
  trimmed stored /\
  exists l r, caller = l ++ stored ++ r /\
    all_chars isspace l = true /\ all_chars isspace r = true.

(** The largest id the store has ever assigned. *)
Definition high (db : Database) : Z :=
  match db with
  | Some t => Z.max (seq t) (max_rowid (rows t))
  | None => 0
  end.

(** The row [insert_customer] writes for the six values [n] .. [c]. *)
Definition new_row (env : Env) (t : Table) (n b e p a c : string)
    : customers.row :=
  customers.mk (next_rowid t) (strip n) (strip b) (strip e) (strip p)
    (strip a) c (CURRENT_TIMESTAMP env).

(** The keys [validate_all] and [insert_customer] read, in the order
    they read them. *)
Definition field_keys : list string :=
  ["name"; "birthday"; "email"; "phone"; "address"; "preferred_contact"].

(** How many times the character [c] occurs in [s]. *)
Fixpoint count_char (c : ascii) (s : string) : nat :=
  match s with
  | EmptyString => 0%nat
  | String a s' => ((if Ascii.eqb a c then 1 else 0) + count_char c s')%nat
  end.

(** The character of the decimal digit [n], for [0 <= n <= 9]. *)
Definition digit_char (n : Z) : ascii := ascii_of_N (Z.to_N (48 + n)).

Definition two_digits (n : Z) : string :=
  String (digit_char (n / 10)) (String (digit_char (n mod 10)) EmptyString).

(** A date written as YYYY-MM-DD, zero padded ([date.isoformat]). *)
Definition isoformat (y m d : Z) : string :=
  String (digit_char (y / 1000)) (String (digit_char (y / 100 mod 10))
    (String (digit_char (y / 10 mod 10)) (String (digit_char (y mod 10))
       ("-" ++ two_digits m ++ "-" ++ two_digits d)))).

(** What is left of the pattern of [%Y-%m-%d] after the year group. *)
Definition after_year : regex :=
  Cat (chr "-") (Cat re_m (Cat (chr "-") re_d)).

(** * Properties *)

(** ** [strip] *)

Lemma isspace_not_decimal c : isspace c = true -> isdecimal c = false.
Proof.
  destruct c as [[] [] [] [] [] [] [] []]; vm_compute; congruence.
Qed.

Lemma lstrip_first s c : first_char (lstrip s) = Some c -> isspace c = false.
Proof.
  induction s as [|a s IH]; simpl; [discriminate|].
  destruct (isspace a) eqn:E; [exact IH|].
  simpl. intros [= <-]. exact E.
Qed.

Lemma rstrip_first s c : first_char (rstrip s) = Some c -> first_char s = Some c.
Proof.
  destruct s as [|a s]; simpl; [discriminate|].
  destruct (rstrip s); [destruct (isspace a)|]; simpl; congruence.
Qed.

Lemma rstrip_last s c : last_char (rstrip s) = Some c -> isspace c = false.
Proof.
  induction s as [|a s IH]; simpl; [discriminate|].
  destruct (rstrip s) as [|b r] eqn:E.
  - destruct (isspace a) eqn:Ea; simpl; [discriminate|].
    intros [= <-]. exact Ea.
  - exact IH.
Qed.

Lemma strip_trimmed s : trimmed (strip s).
Proof.
  split; intros c H.
  - apply (lstrip_first s), rstrip_first, H.
  - apply (rstrip_last (lstrip s)), H.
Qed.

Lemma lstrip_id s :
  (forall c, first_char s = Some c -> isspace c = false) -> lstrip s = s.
Proof.
  destruct s as [|a s]; simpl; [reflexivity|].
  intros H. rewrite (H a eq_refl). reflexivity.
Qed.

Lemma rstrip_id s :
  (forall c, last_char s = Some c -> isspace c = false) -> rstrip s = s.
Proof.
  induction s as [|a s IH]; simpl; [reflexivity|].
  intros H. destruct s as [|b s].
  - simpl. rewrite (H a eq_refl). reflexivity.
  - rewrite IH by exact H. reflexivity.
Qed.

Lemma strip_id s : trimmed s -> strip s = s.
Proof.
  intros [Hf Hl]. unfold strip. rewrite (lstrip_id s Hf). apply rstrip_id, Hl.
Qed.

Lemma strip_idempotent s : strip (strip s) = strip s.
Proof. apply strip_id, strip_trimmed. Qed.

Lemma lstrip_decompose s :
  exists l, s = l ++ lstrip s /\ all_chars isspace l = true.
Proof.
  induction s as [|a s (l & Hl & Hs)]; simpl.
  - exists "". split; reflexivity.
  - destruct (isspace a) eqn:E.
    + exists (String a l). split; [exact (f_equal (String a) Hl)|].
      simpl. rewrite E. exact Hs.
    + exists "". split; reflexivity.
Qed.

Lemma rstrip_decompose s :
  exists r, s = rstrip s ++ r /\ all_chars isspace r = true.
Proof.
  induction s as [|a s (r & Hr & Hs)]; simpl.
  - exists "". split; reflexivity.
  - destruct (rstrip s) as [|b t] eqn:E.
    + change (s = r) in Hr. subst r. destruct (isspace a) eqn:Ea.
      * exists (String a s). split; [reflexivity|]. simpl. rewrite Ea. exact Hs.
      * exists s. split; [reflexivity|exact Hs].
    + exists r. split; [exact (f_equal (String a) Hr)|exact Hs].
Qed.

(** [strip] removes blanks at the two ends and nothing else. *)
Lemma strip_decompose s :
  exists l r, s = l ++ strip s ++ r /\
    all_chars isspace l = true /\ all_chars isspace r = true.
Proof.
  destruct (lstrip_decompose s) as (l & Hl & Hls).
  destruct (rstrip_decompose (lstrip s)) as (r & Hr & Hrs).
  exists l, r. unfold strip. rewrite <- Hr, <- Hl. auto.
Qed.

(** ** Field validators *)

(** [except ValueError] in [validate_birthday] catches whatever
    [strptime] raises. *)
Lemma int_raises_ValueError s e : int s = Raise e -> exists m, e = ValueError m.
Proof.
  unfold int. destruct (strip s); [intros [= <-]; eauto|].
  destruct (int_digits _ _); [discriminate|intros [= <-]; eauto].
Qed.

Lemma date_raises_ValueError y m d e :
  date y m d = Raise e -> exists msg, e = ValueError msg.
Proof.
  unfold date. repeat case_match; try discriminate; intros [= <-]; eauto.
Qed.

Lemma strptime_raises_ValueError s e :
  strptime s = Raise e -> exists m, e = ValueError m.
Proof.
  unfold strptime. destruct (re_match format_regex s) as [[n g]|];
    [|intros [= <-]; eauto].
  destruct (negb _); [intros [= <-]; eauto|].
  destruct (int (group g "Y")) as [y|e1] eqn:Ey; simpl;
    [|intros [= <-]; eapply int_raises_ValueError, Ey].
  destruct (int (group g "m")) as [m|e2] eqn:Em; simpl;
    [|intros [= <-]; eapply int_raises_ValueError, Em].
  destruct (int (group g "d")) as [d|e3] eqn:Ed; simpl;
    [|intros [= <-]; eapply int_raises_ValueError, Ed].
  apply date_raises_ValueError.
Qed.

Lemma re_sub_nondigits s :
  re_sub_class (fun c => negb (isdecimal c)) "" s = filter_chars isdecimal s.
Proof.
  induction s as [|a s IH]; simpl; [reflexivity|].
  destruct (isdecimal a); simpl; rewrite IH; reflexivity.
Qed.

(** C8: the phone validator accepts a string exactly when the digit
    characters left after every non-digit is removed number at least 10;
    "555-1234" is rejected and "555-123-4567" is accepted. *)
Theorem validate_phone_ten_digits :
  (forall s, validate_phone s = true <->
             (10 <= String.length (filter_chars isdecimal s))%nat) /\
  validate_phone "555-1234" = false /\
  validate_phone "555-123-4567" = true.
Proof.
  split; [|split; reflexivity].
  intros s. unfold validate_phone. rewrite re_sub_nondigits.
  apply Nat.leb_le.
Qed.

(** C9: each of the six field validators rejects the empty string. *)
Theorem validators_reject_empty :
  validate_name "" = false /\
  validate_birthday "" = false /\
  validate_email "" = false /\
  validate_phone "" = false /\
  validate_address "" = false /\
  validate_preferred_contact "" = false.
Proof. repeat split; reflexivity. Qed.

(** C10: the preferred-contact validator accepts exactly the strings
    "Email", "Phone" and "Mail", compared character for character, with
    no trimming and no case folding: " Email " and "email" are rejected. *)
Theorem validate_preferred_contact_exact :
  (forall s, validate_preferred_contact s = true <->
             s = "Email" \/ s = "Phone" \/ s = "Mail") /\
  validate_preferred_contact " Email " = false /\
  validate_preferred_contact "email" = false.
Proof.
  split; [|split; reflexivity].
  intros s. unfold validate_preferred_contact. simpl.
  rewrite orb_false_r, !orb_true_iff, !String.eqb_eq. tauto.
Qed.

(** C3: the birthday validator accepts "2001-9-5", which is not of the
    form YYYY-MM-DD: the month and day groups of [strptime] take a single
    digit, and the day group a blank and a digit. *)
Theorem validate_birthday_accepts_unpadded :
  validate_birthday "2001-9-5" = true /\
  validate_birthday "2001-09- 5" = true /\
  strptime "2001-9-5" = Ok (2001, 9, 5).
Proof. repeat split; reflexivity. Qed.

(** Whatever the validator accepts denotes a day of the calendar. *)
Lemma validate_birthday_calendar s :
  validate_birthday s = true ->
  exists y m d, strptime (strip s) = Ok (y, m, d) /\
    MINYEAR <= y <= MAXYEAR /\ 1 <= m <= 12 /\ 1 <= d <= days_in_month y m.
Proof.
  unfold validate_birthday.
  destruct (strptime (strip s)) as [[[y m] d]|x] eqn:Hs; [intros _|discriminate].
  exists y, m, d. split; [reflexivity|].
  unfold strptime in Hs.
  destruct (re_match format_regex (strip s)) as [[n g]|]; [|discriminate].
  destruct (negb _); [discriminate|].
  destruct (int (group g "Y")) as [y'|]; simpl in Hs; [|discriminate].
  destruct (int (group g "m")) as [m'|]; simpl in Hs; [|discriminate].
  destruct (int (group g "d")) as [d'|]; simpl in Hs; [|discriminate].
  unfold date in Hs.
  destruct ((MINYEAR <=? y') && (y' <=? MAXYEAR)) eqn:Ey; simpl in Hs;
    [|discriminate].
  destruct ((1 <=? m') && (m' <=? 12)) eqn:Em; simpl in Hs; [|discriminate].
  destruct ((1 <=? d') && (d' <=? days_in_month y' m')) eqn:Ed; simpl in Hs;
    [|discriminate].
  injection Hs as -> -> ->.
  apply andb_true_iff in Ey as [?%Z.leb_le ?%Z.leb_le].
  apply andb_true_iff in Em as [?%Z.leb_le ?%Z.leb_le].
  apply andb_true_iff in Ed as [?%Z.leb_le ?%Z.leb_le].
  auto.
Qed.

(** Impossible dates and other shapes are rejected. *)
Example validate_birthday_rejects :
  validate_birthday "2021-13-40" = false /\
  validate_birthday "2001-13-01" = false /\
  validate_birthday "2001-01-32" = false /\
  validate_birthday "2001-02-29" = false /\
  validate_birthday "0000-01-01" = false /\
  validate_birthday "15/09/2001" = false /\
  validate_birthday "2001-09-15T00:00" = false /\
  validate_birthday "  2000-02-29  " = true.
Proof. repeat split; reflexivity. Qed.

(** ** [validate_all] *)

Lemma passes_getitem fields k f msg :
  passes fields (k, f, msg) ->
  exists v, getitem fields k = Ok v /\ f v = true.
Proof.
  intros (v & Hv & Hf). simpl in *. exists v. unfold getitem. rewrite Hv. auto.
Qed.

Lemma fails_getitem fields k f msg :
  fails fields (k, f, msg) ->
  exists v, getitem fields k = Ok v /\ f v = false.
Proof.
  intros (v & Hv & Hf). simpl in *. exists v. unfold getitem. rewrite Hv. auto.
Qed.

Ltac use_check H :=
  first [ apply passes_getitem in H | apply fails_getitem in H ];
  let v := fresh "v" in
  let Hg := fresh "Hg" in
  let Hv := fresh "Hv" in
  destruct H as (v & Hg & Hv); rewrite Hg; simpl; rewrite Hv; simpl.

(** C2: when the fields before some field in the order name, birthday,
    email, phone, address, preferred_contact all pass and that field
    fails, [validate_all] returns failure with that field's reason,
    whatever the later fields are (they are not even looked up); when all
    six pass it returns success with the empty reason. *)
Theorem validate_all_first_failure (fields : gmap string string) :
  (forall pre chk post,
     field_checks = (pre ++ chk :: post)%list ->
     Forall (passes fields) pre ->
     fails fields chk ->
     validate_all fields = Ok (false, chk.2)) /\
  (Forall (passes fields) field_checks ->
   validate_all fields = Ok (true, "")).
Proof.
  split.
  - intros pre chk post Heq Hpre Hfail. unfold field_checks in Heq.
    unfold validate_all.
    repeat (destruct pre as [|? pre]; simpl in Heq;
            [ injection Heq as <- _; use_check Hfail; reflexivity
            | injection Heq as <- Heq;
              let H := fresh "Hp" in
              apply Forall_cons in Hpre as [H Hpre]; use_check H ]).
    destruct pre; discriminate Heq.
  - unfold field_checks. intros H. unfold validate_all.
    repeat (let Hp := fresh "Hp" in
            apply Forall_cons in H as [Hp H]; use_check Hp).
    reflexivity.
Qed.

Ltac inv_check H k f :=
  let v := fresh "v" in
  let E := fresh "E" in
  let V := fresh "V" in
  destruct (_ !! k) as [v|] eqn:E in H; simpl in H; [|discriminate H];
  destruct (f v) eqn:V in H; simpl in H; [|discriminate H].

(** Success of [validate_all] means that all six fields are there and
    pass. *)
Lemma validate_all_true_inv fields msg :
  validate_all fields = Ok (true, msg) ->
  Forall (passes fields) field_checks /\ msg = "".
Proof.
  unfold validate_all, getitem. intros H.
  inv_check H "name" validate_name.
  inv_check H "birthday" validate_birthday.
  inv_check H "email" validate_email.
  inv_check H "phone" validate_phone.
  inv_check H "address" validate_address.
  inv_check H "preferred_contact" validate_preferred_contact.
  injection H as <-. split; [|reflexivity].
  unfold field_checks, passes. repeat constructor; simpl; eauto.
Qed.

(** ** [insert_customer] *)

Lemma passes_all_has_fields fields :
  Forall (passes fields) field_checks ->
  exists n b e p a c, has_fields fields n b e p a c /\
    validate_name n = true /\ validate_birthday b = true /\
    validate_email e = true /\ validate_phone p = true /\
    validate_address a = true /\ validate_preferred_contact c = true.
Proof.
  unfold field_checks, passes, has_fields. intros H.
  repeat (let Hp := fresh "Hp" in
          apply Forall_cons in H as [Hp H]; destruct Hp as (? & ? & ?)).
  simpl in *. naive_solver.
Qed.

Lemma insert_customer_unfold env fields db n b e p a c :
  has_fields fields n b e p a c ->
  insert_customer env fields db =
    match connect env with
    | Raise x => (db, Raise x)
    | Ok _ =>
        match execute_insert env db
                (strip n, strip b, strip e, strip p, strip a, c) with
        | Raise x => (db, Raise x)
        | Ok pending =>
            match commit env with
            | Raise x => (db, Raise x)
            | Ok _ => (pending, Ok PyNone)
            end
        end
    end.
Proof.
  intros (Hn & Hb & He & Hp & Ha & Hc). unfold insert_customer, getitem.
  rewrite Hn, Hb, He, Hp, Ha, Hc. reflexivity.
Qed.

(** A failed call leaves the store as it was. *)
Lemma insert_customer_raise env fields db db' x :
  insert_customer env fields db = (db', Raise x) -> db' = db.
Proof.
  unfold insert_customer. repeat case_match; congruence.
Qed.

(** What a successful call has done. *)
Lemma insert_customer_ok_inv env fields db db' v :
  insert_customer env fields db = (db', Ok v) ->
  v = PyNone /\
  exists t n b e p a c,
    has_fields fields n b e p a c /\ db = Some t /\
    high db < MAX_ROWID /\
    db' = Some {| rows := rows t ++ [new_row env t n b e p a c];
                  seq := next_rowid t |}.
Proof.
  unfold insert_customer, getitem, has_fields. intros H.
  destruct (connect env) as [[]|]; [|discriminate].
  destruct (fields !! "name") as [n|]; [|discriminate].
  destruct (fields !! "birthday") as [b|]; [|discriminate].
  destruct (fields !! "email") as [e|]; [|discriminate].
  destruct (fields !! "phone") as [p|]; [|discriminate].
  destruct (fields !! "address") as [a|]; [|discriminate].
  destruct (fields !! "preferred_contact") as [c|]; [|discriminate].
  simpl in H. unfold execute_insert in H.
  destruct (raises env ExecuteFault) as [[]|]; [|discriminate]. simpl in H.
  destruct db as [t|]; [|discriminate].
  destruct (MAX_ROWID <=? _) eqn:Efull; [discriminate|]. simpl in H.
  destruct (commit env) as [[]|]; [|discriminate].
  injection H as <- <-. split; [reflexivity|].
  exists t, n, b, e, p, a, c. simpl. apply Z.leb_gt in Efull.
  repeat split; auto.
Qed.

(** With no fault, an existing table and room for one more id, the call
    succeeds. *)
Lemma insert_customer_succeeds env fields t n b e p a c :
  fault env = None ->
  has_fields fields n b e p a c ->
  high (Some t) < MAX_ROWID ->
  insert_customer env fields (Some t) =
    (Some {| rows := rows t ++ [new_row env t n b e p a c];
             seq := next_rowid t |}, Ok PyNone).
Proof.
  intros Hf Hfields Hroom. rewrite (insert_customer_unfold _ _ _ _ _ _ _ _ _ Hfields).
  unfold connect, commit, execute_insert, raises. rewrite Hf. simpl in *.
  apply Z.leb_gt in Hroom. rewrite Hroom. reflexivity.
Qed.

(** The validators see through [strip]: the trimmed value passes exactly
    when the raw one does. *)
Lemma validate_name_strip s : validate_name (strip s) = validate_name s.
Proof. unfold validate_name. rewrite strip_idempotent. reflexivity. Qed.

Lemma validate_birthday_strip s : validate_birthday (strip s) = validate_birthday s.
Proof. unfold validate_birthday. rewrite strip_idempotent. reflexivity. Qed.

Lemma validate_email_strip s : validate_email (strip s) = validate_email s.
Proof. unfold validate_email. rewrite strip_idempotent. reflexivity. Qed.

Lemma validate_address_strip s : validate_address (strip s) = validate_address s.
Proof. unfold validate_address. rewrite strip_idempotent. reflexivity. Qed.

Lemma filter_chars_app p s1 s2 :
  filter_chars p (s1 ++ s2) = filter_chars p s1 ++ filter_chars p s2.
Proof.
  induction s1 as [|a s1 IH]; [reflexivity|].
  change (String a s1 ++ s2) with (String a (s1 ++ s2)). simpl.
  destruct (p a); rewrite IH; reflexivity.
Qed.

Lemma filter_chars_blank s :
  all_chars isspace s = true -> filter_chars isdecimal s = "".
Proof.
  induction s as [|a s IH]; simpl; [reflexivity|].
  intros [Ha Hs]%andb_true_iff. rewrite (isspace_not_decimal a Ha). auto.
Qed.

Lemma append_empty_r (s : string) : s ++ "" = s.
Proof.
  induction s as [|a s IH]; [reflexivity|].
  change (String a s ++ "") with (String a (s ++ "")). rewrite IH. reflexivity.
Qed.

Lemma validate_phone_strip s : validate_phone (strip s) = validate_phone s.
Proof.
  unfold validate_phone. rewrite !re_sub_nondigits.
  destruct (strip_decompose s) as (l & r & Hs & Hl & Hr).
  rewrite Hs at 2. rewrite !filter_chars_app.
  rewrite (filter_chars_blank l Hl), (filter_chars_blank r Hr).
  rewrite append_empty_r. reflexivity.
Qed.

Lemma strip_whitespace_removed s : whitespace_removed s (strip s).
Proof. split; [apply strip_trimmed|apply strip_decompose]. Qed.

Lemma preferred_contact_trimmed c :
  validate_preferred_contact c = true -> trimmed c.
Proof.
  unfold validate_preferred_contact. simpl.
  rewrite orb_false_r, !orb_true_iff, !String.eqb_eq.
  intros [-> | [-> | ->]]; split; simpl; intros ? [= <-]; reflexivity.
Qed.

Lemma get_form_data_fields self :
  has_fields (get_form_data self) (name_var self) (bday_var self)
    (email_var self) (phone_var self) (strip (address_text_get self))
    (pref_var self).
Proof. unfold has_fields, get_form_data. repeat split; by simplify_map_eq. Qed.

(** ** Persistence and the submit path *)

(** [insert_customer] does not validate: called on a mapping that
    [validate_all] rejects, it writes the row. *)
Lemma insert_customer_persists_invalid :
  validate_all bad = Ok (false, "Please enter the customer's name.") /\
  insert_customer env_ok bad (Some empty_table) =
    (Some {| rows := [customers.mk 1 "" "2021-13-40" "not-an-email"
                        "555-1234" "" "Fax" "2024-05-01 10:00:00"];
             seq := 1 |}, Ok PyNone).
Proof. split; reflexivity. Qed.

(** C1 (amended): on the submit path a record reaches the store only if
    [validate_all] accepts the form data.  When validation fails, the
    store and the form are unchanged and the reason is shown; in every
    case the store is either unchanged or has gained exactly one complete
    row, all six user columns of which pass their validators. *)
Theorem on_submit_persists_only_valid env self db :
  let '(self', db', out) := on_submit env self db in
  (forall msg, validate_all (get_form_data self) = Ok (false, msg) ->
     db' = db /\ self' = self /\
     out = Ok (showerror "Validation Error" msg)) /\
  (db' = db \/
   validate_all (get_form_data self) = Ok (true, "") /\
   exists t r, db = Some t /\
     db' = Some {| rows := rows t ++ [r]; seq := customers.id r |} /\
     row_valid r).
Proof.
  unfold on_submit.
  destruct (validate_all (get_form_data self)) as [[valid msg]|x] eqn:Hv;
    [|split; [discriminate|left; reflexivity]].
  destruct valid; simpl.
  - destruct (insert_customer env (get_form_data self) db) as [db' [v|x]] eqn:Hi.
    + split; [discriminate|]. right.
      destruct (validate_all_true_inv _ _ Hv) as [Hall ->].
      split; [reflexivity|].
      apply passes_all_has_fields in Hall
        as (n & b & e & p & a & c & Hf & Vn & Vb & Ve & Vp & Va & Vc).
      apply insert_customer_ok_inv in Hi
        as (_ & t & n' & b' & e' & p' & a' & c' & Hf' & -> & _ & ->).
      destruct Hf as (Hn & Hb & He & Hp & Ha & Hc).
      destruct Hf' as (Hn' & Hb' & He' & Hp' & Ha' & Hc').
      rewrite Hn in Hn'. rewrite Hb in Hb'. rewrite He in He'.
      rewrite Hp in Hp'. rewrite Ha in Ha'. rewrite Hc in Hc'.
      injection Hn' as ->. injection Hb' as ->. injection He' as ->.
      injection Hp' as ->. injection Ha' as ->. injection Hc' as ->.
      exists t, (new_row env t n' b' e' p' a' c').
      split; [reflexivity|]. split; [reflexivity|].
      unfold row_valid, new_row. simpl.
      rewrite validate_name_strip, validate_birthday_strip,
        validate_email_strip, validate_phone_strip, validate_address_strip.
      auto 10.
    + apply insert_customer_raise in Hi as ->.
      split; [discriminate|left; reflexivity].
  - split; [|left; reflexivity]. intros m [= <-]. auto.
Qed.




(** The preferred contact is written as given, blanks included. *)
Lemma insert_customer_keeps_contact_blanks :
  insert_customer env_ok spaced_contact (Some empty_table) =
    (Some {| rows := [customers.mk 1 "Ana Li" "2001-09-15" "a@b.co"
                        "(555) 123-4567" "1 Main St" " Mail "
                        "2024-05-01 10:00:00"];
             seq := 1 |}, Ok PyNone) /\
  ~ trimmed " Mail ".
Proof.
  split; [reflexivity|].
  intros [H _]. specialize (H " "%char eq_refl). discriminate H.
Qed.

(** C5 (amended): in the row a successful [insert_customer] writes, name,
    birthday, email, phone and address are the caller's values with the blanks at
    the two ends removed and nothing else changed (so the phone keeps its
    punctuation), and none of them begins or ends with a blank; the
    preferred contact is stored as given, and is free of such blanks
    whenever it passes its validator. *)
Theorem insert_customer_stores_stripped env fields db db' v :
  insert_customer env fields db = (db', Ok v) ->
  exists t r n b e p a c,
    has_fields fields n b e p a c /\ db = Some t /\
    db' = Some {| rows := rows t ++ [r]; seq := customers.id r |} /\
    (customers.name r = strip n /\ customers.birthday r = strip b /\
     customers.email r = strip e /\ customers.phone r = strip p /\
     customers.address r = strip a /\ customers.preferred_contact r = c) /\
    (whitespace_removed n (customers.name r) /\
     whitespace_removed b (customers.birthday r) /\
     whitespace_removed e (customers.email r) /\
     whitespace_removed p (customers.phone r) /\
     whitespace_removed a (customers.address r)) /\
    (validate_preferred_contact c = true ->
     trimmed (customers.preferred_contact r)).
Proof.
  intros Hi. apply insert_customer_ok_inv in Hi
    as (_ & t & n & b & e & p & a & c & Hf & -> & _ & ->).
  exists t, (new_row env t n b e p a c), n, b, e, p, a, c. simpl.
  split; [exact Hf|]. split; [reflexivity|]. split; [reflexivity|].
  split; [auto 10|].
  split; [auto 10 using strip_whitespace_removed|].
  apply preferred_contact_trimmed.
Qed.

Lemma insert_customer_stores_stripped_witness :
  exists t r n b e p a c,
    has_fields padded n b e p a c /\ Some empty_table = Some t /\
    (insert_customer env_ok padded (Some empty_table)).1 =
      Some {| rows := rows t ++ [r]; seq := customers.id r |} /\
    (customers.name r = strip n /\ customers.birthday r = strip b /\
     customers.email r = strip e /\ customers.phone r = strip p /\
     customers.address r = strip a /\ customers.preferred_contact r = c) /\
    (whitespace_removed n (customers.name r) /\
     whitespace_removed b (customers.birthday r) /\
     whitespace_removed e (customers.email r) /\
     whitespace_removed p (customers.phone r) /\
     whitespace_removed a (customers.address r)) /\
    (validate_preferred_contact c = true ->
     trimmed (customers.preferred_contact r)).
Proof.
  apply (insert_customer_stores_stripped env_ok padded (Some empty_table) _ PyNone).
  reflexivity.
Defined.

(** The row written for [padded]: the phone keeps its punctuation. *)
Example insert_padded :
  insert_customer env_ok padded (Some empty_table) =
    (Some {| rows := [customers.mk 1 "Ana Li" "2001-09-15" "a@b.co"
                        "(555) 123-4567" "1 Main St" "Email"
                        "2024-05-01 10:00:00"];
             seq := 1 |}, Ok PyNone).
Proof. reflexivity. Qed.

(** ** Identifiers *)

Lemma max_rowid_nonneg l : 0 <= max_rowid l.
Proof. induction l as [|r l IH]; simpl; lia. Qed.

Lemma max_rowid_snoc l r :
  max_rowid (l ++ [r]) = Z.max (max_rowid l) (Z.max (customers.id r) 0).
Proof. induction l as [|x l IH]; simpl; [lia|]. rewrite IH. lia. Qed.

Lemma max_rowid_bound l : Forall (fun r => customers.id r <= max_rowid l) l.
Proof.
  induction l as [|x l IH]; simpl; constructor; [lia|].
  eapply Forall_impl; [exact IH|]. simpl. intros; lia.
Qed.

Lemma ids_below_high db : Forall (fun j => j <= high db) (ids db).
Proof.
  destruct db as [t|]; simpl; [|constructor].
  apply Forall_map. eapply Forall_impl; [apply max_rowid_bound|].
  simpl. intros; lia.
Qed.

(** One call: either the store gains the id one above the largest it has
    ever assigned, or the call raises and the store is as before. *)
Lemma insert_customer_step env fields db :
  let '(db1, r) := insert_customer env fields db in
  (r = Ok PyNone /\ lastrowid db1 = Some (high db + 1) /\
   high db1 = high db + 1 /\ ids db1 = (ids db ++ [high db + 1])%list) \/
  (exists x, r = Raise x /\ db1 = db).
Proof.
  destruct (insert_customer env fields db) as [db1 [v|x]] eqn:Hi.
  - left. apply insert_customer_ok_inv in Hi
      as (-> & t & n & b & e & p & a & c & _ & -> & _ & ->).
    pose proof (max_rowid_nonneg (rows t)) as Hnn.
    unfold lastrowid, ids, high, new_row. simpl.
    rewrite map_app, max_rowid_snoc. simpl. rewrite last_snoc.
    unfold next_rowid.
    repeat split; try reflexivity. lia.
  - right. exists x. split; [reflexivity|].
    eapply insert_customer_raise, Hi.
Qed.

Lemma insert_all_spec calls : forall db,
  StronglySorted Z.lt (insert_all calls db).2 /\
  Forall (fun i => high db < i) (insert_all calls db).2 /\
  ids (insert_all calls db).1 = (ids db ++ (insert_all calls db).2)%list /\
  high db <= high (insert_all calls db).1.
Proof.
  induction calls as [|[env fields] rest IH]; intros db; simpl.
  - rewrite app_nil_r. repeat split; try constructor. lia.
  - pose proof (insert_customer_step env fields db) as Hstep.
    destruct (insert_customer env fields db) as [db1 r].
    specialize (IH db1).
    destruct (insert_all rest db1) as [db2 assigned]. simpl in *.
    destruct IH as (Hs & Hf & Hi & Hh).
    destruct Hstep as [(-> & Hl & Hh1 & Hi1)|(x & -> & ->)].
    + rewrite Hl. simpl. rewrite Hi, Hi1, <- app_assoc. simpl.
      repeat split; [| |lia].
      * constructor; [exact Hs|].
        eapply Forall_impl; [exact Hf|]. simpl. intros; lia.
      * constructor; [lia|].
        eapply Forall_impl; [exact Hf|]. simpl. intros; lia.
    + simpl. auto.
Qed.

Lemma StronglySorted_lt_NoDup l : StronglySorted Z.lt l -> NoDup l.
Proof.
  induction 1 as [|x l Hs IH Hx]; constructor; [|exact IH].
  intros Hin. rewrite Forall_forall in Hx. specialize (Hx x Hin). lia.
Qed.

(** Two successful calls in a row return the same value, [None]; the
    ids 1 and 2 are in the rows they wrote. *)
Lemma insert_customer_returns_same_twice :
  (insert_customer env_ok ana (Some empty_table)).2 = Ok PyNone /\
  (insert_customer env_ok ana
     (insert_customer env_ok ana (Some empty_table)).1).2 = Ok PyNone /\
  lastrowid (insert_customer env_ok ana (Some empty_table)).1 = Some 1 /\
  lastrowid (insert_customer env_ok ana
               (insert_customer env_ok ana (Some empty_table)).1).1 = Some 2.
Proof. repeat split; reflexivity. Qed.

(** C6 (amended): over any sequence of [insert_customer] calls on one
    store, the ids the store assigns to the rows written by the
    successful calls (the calls themselves return [None]) are strictly
    increasing in call order, hence pairwise distinct; each is larger
    than every id in the store before the sequence and than every id the
    store has ever assigned, so no id is used twice; and the ids in the
    store at the end are the earlier ones followed by the assigned
    ones. *)
Theorem assigned_ids_strictly_increasing calls db :
  StronglySorted Z.lt (insert_all calls db).2 /\
  NoDup (insert_all calls db).2 /\
  Forall (fun i => high db < i /\ Forall (fun j => j < i) (ids db))
         (insert_all calls db).2 /\
  ids (insert_all calls db).1 = (ids db ++ (insert_all calls db).2)%list.
Proof.
  destruct (insert_all_spec calls db) as (Hs & Hf & Hi & _).
  split; [exact Hs|]. split; [apply StronglySorted_lt_NoDup, Hs|].
  split; [|exact Hi].
  eapply Forall_impl; [exact Hf|]. simpl. intros i Hi'. split; [exact Hi'|].
  eapply Forall_impl; [apply ids_below_high|]. simpl. intros; lia.
Qed.

(** Three calls, the second of which fails: ids 1 and 2. *)
Example insert_all_example :
  (insert_all
     [(env_ok, ana);
      ({| fault := Some (CommitFault, "database is locked");
          CURRENT_TIMESTAMP := "2024-05-01 10:00:01" |}, ana);
      (env_ok, padded)] (Some empty_table)).2 = [1; 2].
Proof. reflexivity. Qed.

(** C7: two successful calls in a row with the same fields add two rows
    to the store, with the same user columns and with different ids, the
    second id one above the first; and with valid fields, no fault, a
    table and room for two ids, both calls do succeed. *)
Theorem insert_twice_two_records fields :
  (forall env1 env2 db db1 db2 v1 v2,
     insert_customer env1 fields db = (db1, Ok v1) ->
     insert_customer env2 fields db1 = (db2, Ok v2) ->
     exists t r1 r2,
       db = Some t /\
       db2 = Some {| rows := rows t ++ [r1; r2]; seq := customers.id r2 |} /\
       customers.id r2 = customers.id r1 + 1 /\
       customers.id r1 <> customers.id r2 /\ r1 <> r2 /\
       customers.name r1 = customers.name r2 /\
       customers.birthday r1 = customers.birthday r2 /\
       customers.email r1 = customers.email r2 /\
       customers.phone r1 = customers.phone r2 /\
       customers.address r1 = customers.address r2 /\
       customers.preferred_contact r1 = customers.preferred_contact r2) /\
  (forall env1 env2 t,
     validate_all fields = Ok (true, "") ->
     fault env1 = None -> fault env2 = None ->
     high (Some t) + 1 < MAX_ROWID ->
     exists db1 db2,
       insert_customer env1 fields (Some t) = (db1, Ok PyNone) /\
       insert_customer env2 fields db1 = (db2, Ok PyNone)).
Proof.
  split.
  - intros env1 env2 db db1 db2 v1 v2 H1 H2.
    pose proof (insert_customer_step env1 fields db) as Hstep.
    rewrite H1 in Hstep. destruct Hstep as [(_ & _ & Hh & _)|(x & [=] & _)].
    apply insert_customer_ok_inv in H1
      as (_ & t & n & b & e & p & a & c & Hf & -> & _ & ->).
    apply insert_customer_ok_inv in H2
      as (_ & t' & n' & b' & e' & p' & a' & c' & Hf' & [= <-] & _ & ->).
    destruct Hf as (Hn & Hb & He & Hp & Ha & Hc).
    destruct Hf' as (Hn' & Hb' & He' & Hp' & Ha' & Hc').
    rewrite Hn in Hn'. rewrite Hb in Hb'. rewrite He in He'.
    rewrite Hp in Hp'. rewrite Ha in Ha'. rewrite Hc in Hc'.
    injection Hn' as <-. injection Hb' as <-. injection He' as <-.
    injection Hp' as <-. injection Ha' as <-. injection Hc' as <-.
    exists t, (new_row env1 t n b e p a c).
    eexists (new_row env2 _ n b e p a c).
    split; [reflexivity|]. simpl. rewrite <- app_assoc. simpl.
    split; [reflexivity|].
    assert (next_rowid {| rows := rows t ++ [new_row env1 t n b e p a c];
                          seq := next_rowid t |} = next_rowid t + 1) as Hnext.
    { unfold next_rowid at 1. simpl in Hh. simpl. rewrite Hh.
      unfold next_rowid. reflexivity. }
    rewrite Hnext. repeat split; try lia.
    intros Heq. apply (f_equal customers.id) in Heq. simpl in Heq. lia.
  - intros env1 env2 t Hv Hf1 Hf2 Hroom.
    destruct (validate_all_true_inv _ _ Hv) as [Hall _].
    apply passes_all_has_fields in Hall as (n & b & e & p & a & c & Hf & _).
    eexists _, _. split.
    + apply (insert_customer_succeeds env1 fields t n b e p a c); auto.
      simpl in *. lia.
    + apply (insert_customer_succeeds env2 fields _ n b e p a c); auto.
      pose proof (insert_customer_step env1 fields (Some t)) as Hstep.
      rewrite (insert_customer_succeeds env1 fields t n b e p a c) in Hstep;
        [|auto..|simpl in *; lia].
      destruct Hstep as [(_ & _ & Hh & _)|(x & [=] & _)].
      rewrite Hh. lia.
Qed.

Lemma insert_twice_two_records_witness :
  (exists t r1 r2,
     Some empty_table = Some t /\
     (insert_customer env_ok ana
        (insert_customer env_ok ana (Some empty_table)).1).1 =
       Some {| rows := rows t ++ [r1; r2]; seq := customers.id r2 |} /\
     customers.id r2 = customers.id r1 + 1 /\
     customers.id r1 <> customers.id r2 /\ r1 <> r2 /\
     customers.name r1 = customers.name r2 /\
     customers.birthday r1 = customers.birthday r2 /\
     customers.email r1 = customers.email r2 /\
     customers.phone r1 = customers.phone r2 /\
     customers.address r1 = customers.address r2 /\
     customers.preferred_contact r1 = customers.preferred_contact r2) /\
  (exists db1 db2,
     insert_customer env_ok ana (Some empty_table) = (db1, Ok PyNone) /\
     insert_customer env_ok ana db1 = (db2, Ok PyNone)).
Proof.
  split.
  - apply (proj1 (insert_twice_two_records ana) env_ok env_ok
             (Some empty_table)
             (insert_customer env_ok ana (Some empty_table)).1
             (insert_customer env_ok ana
                (insert_customer env_ok ana (Some empty_table)).1).1
             PyNone PyNone); reflexivity.
  - apply (proj2 (insert_twice_two_records ana) env_ok env_ok empty_table);
      [reflexivity|reflexivity|reflexivity|vm_compute; reflexivity].
Defined.

Lemma validate_all_first_failure_witness :
  validate_all (get_form_data form_bad) =
    Ok (false, "Birthday must be in YYYY-MM-DD format (e.g., 2001-09-15).") /\
  validate_all only_name = Ok (false, "Please enter the customer's name.") /\
  validate_all ana = Ok (true, "").
Proof.
  split; [|split].
  - apply (proj1 (validate_all_first_failure (get_form_data form_bad))
             [("name", validate_name, "Please enter the customer's name.")]
             ("birthday", validate_birthday,
              "Birthday must be in YYYY-MM-DD format (e.g., 2001-09-15).")
             [("email", validate_email, "Please enter a valid email address.");
              ("phone", validate_phone,
               "Please enter a valid phone number with at least 10 digits.");
              ("address", validate_address, "Please enter the address.");
              ("preferred_contact", validate_preferred_contact,
               "Please choose a preferred contact method.")]).
    + reflexivity.
    + repeat constructor. exists "Ana Li". split; reflexivity.
    + exists "2021-13-40". split; reflexivity.
  - apply (proj1 (validate_all_first_failure only_name) []
             ("name", validate_name, "Please enter the customer's name.")
             (tail field_checks)).
    + reflexivity.
    + constructor.
    + exists " ". split; reflexivity.
  - apply (proj2 (validate_all_first_failure ana)).
    unfold field_checks.
    repeat constructor; eexists; (split; [reflexivity|reflexivity]).
Defined.

Lemma on_submit_persists_only_valid_witness :
  (on_submit env_ok form_bad (Some empty_table)).1.2 = Some empty_table /\
  (on_submit env_ok form_bad (Some empty_table)).2 =
    Ok (showerror "Validation Error"
          "Birthday must be in YYYY-MM-DD format (e.g., 2001-09-15).").
Proof.
  pose proof (proj1 (on_submit_persists_only_valid env_ok form_bad
                       (Some empty_table)) _ eq_refl) as (H1 & _ & H2).
  split; [exact H1|exact H2].
Defined.

(** * Further properties *)

(** ** [init_db] *)

(** X1: [init_db] never touches an existing table, creates an empty one
    when there is none and nothing fails, leaves the file as it was when it
    raises, and changes nothing when it is run again after a success. *)
Theorem init_db_keeps_data env db :
  (forall t, db = Some t -> (init_db env db).1 = Some t) /\
  (db = None -> fault env = None ->
   init_db env db = (Some {| rows := []; seq := 0 |}, Ok PyNone)) /\
  (forall x, (init_db env db).2 = Raise x -> (init_db env db).1 = db) /\
  (forall env' v, (init_db env db).2 = Ok v ->
   (init_db env' (init_db env db).1).1 = (init_db env db).1).
Proof.
  unfold init_db, connect, commit, execute_create, raises,
    mbind, mret, result_bind, result_ret.
  repeat split.
  - intros t ->. destruct (fault env) as [[[] m]|]; reflexivity.
  - intros -> ->. reflexivity.
  - intros x. destruct (fault env) as [[[] m]|]; simpl; intros H;
      try reflexivity; destruct db; simpl in H;
      first [reflexivity | discriminate H].
  - intros env' v.
    destruct db as [t|]; destruct (fault env) as [[[] m]|]; simpl;
      intros H; try discriminate H;
      destruct (fault env') as [[[] m']|]; reflexivity.
Qed.

Lemma init_db_keeps_data_witness :
  init_db env_ok None = (Some {| rows := []; seq := 0 |}, Ok PyNone) /\
  (init_db env_ok (Some {| rows := []; seq := 7 |})).1 =
    Some {| rows := []; seq := 7 |}.
Proof.
  split.
  - apply (proj1 (proj2 (init_db_keeps_data env_ok None))); reflexivity.
  - apply (proj1 (init_db_keeps_data env_ok (Some {| rows := []; seq := 7 |}))).
    reflexivity.
Defined.

(** With the six keys present, a call either writes the row or raises a
    database error and writes nothing. *)
Lemma insert_customer_cases env fields db n b e p a c :
  has_fields fields n b e p a c ->
  (exists t, db = Some t /\ high db < MAX_ROWID /\
     insert_customer env fields db =
       (Some {| rows := rows t ++ [new_row env t n b e p a c];
                seq := next_rowid t |}, Ok PyNone)) \/
  (exists msg, insert_customer env fields db = (db, Raise (OperationalError msg))).
Proof.
  intros Hf. rewrite (insert_customer_unfold _ _ _ _ _ _ _ _ _ Hf).
  unfold connect, commit, execute_insert, raises.
  destruct (fault env) as [[[] m]|]; simpl; eauto.
  - destruct db as [t|]; eauto. destruct (MAX_ROWID <=? _); simpl; eauto.
  - destruct db as [t|]; eauto.
    destruct (MAX_ROWID <=? _) eqn:E; simpl; eauto.
    left. exists t. apply Z.leb_gt in E. simpl. auto.
Qed.

(** X2: once [init_db] has succeeded, a call of [insert_customer] with the
    six keys, no fault and an id to spare writes its row. *)
Theorem init_db_then_insert env0 env fields db db0 v n b e p a c :
  init_db env0 db = (db0, Ok v) ->
  fault env = None ->
  has_fields fields n b e p a c ->
  high db0 < MAX_ROWID ->
  exists t, db0 = Some t /\
    insert_customer env fields db0 =
      (Some {| rows := rows t ++ [new_row env t n b e p a c];
               seq := next_rowid t |}, Ok PyNone).
Proof.
  intros Hinit Hfault Hf Hroom.
  assert (exists t, db0 = Some t) as [t ->].
  { revert Hinit.
    unfold init_db, connect, commit, execute_create, raises,
      mbind, mret, result_bind, result_ret.
    destruct db as [t|]; destruct (fault env0) as [[[] m]|]; simpl;
      intros H; try discriminate H; injection H as <- _; eauto. }
  exists t. split; [reflexivity|].
  apply insert_customer_succeeds; assumption.
Qed.

Lemma init_db_then_insert_witness :
  exists t, (init_db env_ok None).1 = Some t /\
    insert_customer env_ok padded (init_db env_ok None).1 =
      (Some {| rows := rows t ++ [new_row env_ok t "  Ana Li " " 2001-09-15"
                                    "a@b.co " " (555) 123-4567 "
                                    " 1 Main St " "Email"];
               seq := next_rowid t |}, Ok PyNone).
Proof.
  apply (init_db_then_insert env_ok env_ok padded None
           (init_db env_ok None).1 PyNone).
  - reflexivity.
  - reflexivity.
  - repeat split; reflexivity.
  - reflexivity.
Defined.

(** X3: [insert_customer] never creates the table: on a file without it
    every call raises and leaves the file without it, and with the six
    keys and no fault the error is "no such table: customers". *)
Theorem insert_customer_without_table env fields :
  (exists x, insert_customer env fields None = (None, Raise x)) /\
  (forall n b e p a c,
     has_fields fields n b e p a c -> fault env = None ->
     insert_customer env fields None =
       (None, Raise (OperationalError "no such table: customers"))).
Proof.
  split.
  - destruct (insert_customer env fields None) as [db' [v|x]] eqn:Hi.
    + apply insert_customer_ok_inv in Hi as (_ & t & ? & ? & ? & ? & ? & ? & _ & [=] & _).
    + apply insert_customer_raise in Hi as ->. eauto.
  - intros n b e p a c Hf Hfault.
    rewrite (insert_customer_unfold _ _ _ _ _ _ _ _ _ Hf).
    unfold connect, commit, execute_insert, raises. rewrite Hfault. reflexivity.
Qed.

Lemma insert_customer_without_table_witness :
  insert_customer env_ok ana None =
    (None, Raise (OperationalError "no such table: customers")).
Proof.
  apply (proj2 (insert_customer_without_table env_ok ana)
           "Ana Li" "2001-09-15" "a@b.co" "(555) 123-4567" "1 Main St" "Email").
  - repeat split; reflexivity.
  - reflexivity.
Defined.

(** ** Missing and extra keys *)

Ltac use_key H :=
  let v := fresh "v" in
  let Hv := fresh "Hv" in
  destruct H as [v Hv]; rewrite Hv; simpl.

(** X4: when the connection opens and some key is missing,
    [insert_customer] raises [KeyError] for the first missing key in the
    order name, birthday, email, phone, address, preferred_contact, before
    any statement is run: the store is untouched, even a store without
    the table. *)
Theorem insert_customer_missing_key env fields db pre k post :
  field_keys = (pre ++ k :: post)%list ->
  Forall (fun k' => is_Some (fields !! k')) pre ->
  fields !! k = None ->
  connect env = Ok tt ->
  insert_customer env fields db = (db, Raise (KeyError k)).
Proof.
  intros Heq Hpre Hk Hc. unfold field_keys in Heq.
  unfold insert_customer, getitem. rewrite Hc.
  repeat (destruct pre as [|? pre]; simpl in Heq;
          [ injection Heq as <- _; rewrite Hk; reflexivity
          | injection Heq as <- Heq;
            let H := fresh "Hp" in
            apply Forall_cons in Hpre as [H Hpre]; use_key H ]).
  destruct pre; discriminate Heq.
Qed.

Lemma insert_customer_missing_key_witness :
  insert_customer env_ok only_name None = (None, Raise (KeyError "birthday")).
Proof.
  apply (insert_customer_missing_key env_ok only_name None ["name"] "birthday"
           ["email"; "phone"; "address"; "preferred_contact"]).
  - reflexivity.
  - repeat constructor. exists " ". reflexivity.
  - reflexivity.
  - reflexivity.
Defined.

Lemma getitem_missing (fields : gmap string string) k :
  fields !! k = None -> getitem fields k = Raise (KeyError k).
Proof. intros H. unfold getitem. rewrite H. reflexivity. Qed.

(** X5: when the fields before some field all pass and that field's key
    is missing, [validate_all] raises [KeyError] for that key. *)
Theorem validate_all_missing_key fields pre chk post :
  field_checks = (pre ++ chk :: post)%list ->
  Forall (passes fields) pre ->
  fields !! chk.1.1 = None ->
  validate_all fields = Raise (KeyError chk.1.1).
Proof.
  intros Heq Hpre Hk. unfold field_checks in Heq. unfold validate_all.
  repeat (destruct pre as [|? pre]; simpl in Heq;
          [ injection Heq as <- _; simpl in Hk;
            rewrite (getitem_missing _ _ Hk); reflexivity
          | injection Heq as <- Heq;
            let H := fresh "Hp" in
            apply Forall_cons in Hpre as [H Hpre]; use_check H ]).

  destruct pre; discriminate Heq.
Qed.

Lemma validate_all_missing_key_witness :
  validate_all (<["name" := "Ana Li"]> ∅) = Raise (KeyError "birthday").
Proof.
  apply (validate_all_missing_key (<["name" := "Ana Li"]> ∅)
           [("name", validate_name, "Please enter the customer's name.")]
           ("birthday", validate_birthday,
            "Birthday must be in YYYY-MM-DD format (e.g., 2001-09-15).")
           (tail (tail field_checks))).
  - reflexivity.
  - repeat constructor. exists "Ana Li". split; reflexivity.
  - reflexivity.
Defined.

(** The verdict of [validate_all] on a mapping with the six keys. *)
Lemma validate_all_verdict fields n b e p a c :
  has_fields fields n b e p a c ->
  exists ok msg,
    validate_all fields = Ok (ok, msg) /\
    (ok = true <->
     validate_name n = true /\ validate_birthday b = true /\
     validate_email e = true /\ validate_phone p = true /\
     validate_address a = true /\ validate_preferred_contact c = true) /\
    (ok = true <-> msg = "") /\
    (ok = false -> In msg (map snd field_checks)).
Proof.
  intros (Hn & Hb & He & Hp & Ha & Hc). unfold validate_all, getitem.
  rewrite Hn, Hb, He, Hp, Ha, Hc. simpl.
  destruct (validate_name n); simpl;
    [|eexists _, _; split; [reflexivity|]; simpl; intuition discriminate].
  destruct (validate_birthday b); simpl;
    [|eexists _, _; split; [reflexivity|]; simpl; intuition discriminate].
  destruct (validate_email e); simpl;
    [|eexists _, _; split; [reflexivity|]; simpl; intuition discriminate].
  destruct (validate_phone p); simpl;
    [|eexists _, _; split; [reflexivity|]; simpl; intuition discriminate].
  destruct (validate_address a); simpl;
    [|eexists _, _; split; [reflexivity|]; simpl; intuition discriminate].
  destruct (validate_preferred_contact c); simpl;
    [|eexists _, _; split; [reflexivity|]; simpl; intuition discriminate].
  eexists _, _; split; [reflexivity|]. intuition discriminate.
Qed.

(** X6: on a mapping that has the six keys [validate_all] does not raise;
    it succeeds exactly when all six validators accept, the reason is
    empty exactly on success, and on failure it is one of the six
    messages. *)
Theorem validate_all_reason fields n b e p a c :
  has_fields fields n b e p a c ->
  exists ok msg,
    validate_all fields = Ok (ok, msg) /\
    (ok = true <->
     validate_name n = true /\ validate_birthday b = true /\
     validate_email e = true /\ validate_phone p = true /\
     validate_address a = true /\ validate_preferred_contact c = true) /\
    (ok = true <-> msg = "") /\
    (ok = false -> In msg (map snd field_checks)).
Proof. apply validate_all_verdict. Qed.

Lemma validate_all_reason_witness :
  exists ok msg,
    validate_all bad = Ok (ok, msg) /\
    (ok = true <->
     validate_name "" = true /\ validate_birthday "2021-13-40" = true /\
     validate_email "not-an-email" = true /\ validate_phone "555-1234" = true /\
     validate_address " " = true /\ validate_preferred_contact "Fax" = true) /\
    (ok = true <-> msg = "") /\
    (ok = false -> In msg (map snd field_checks)).
Proof.
  apply (validate_all_reason bad). repeat split; reflexivity.
Defined.

(** X7: [validate_all] and [insert_customer] read the six keys and no
    other: an entry under any other key, such as "id" or "created_at",
    changes neither the verdict nor what is written. *)
Theorem extra_keys_ignored env fields db k v :
  ~ In k field_keys ->
  validate_all (<[k := v]> fields) = validate_all fields /\
  insert_customer env (<[k := v]> fields) db = insert_customer env fields db.
Proof.
  intros Hk. unfold field_keys in Hk. simpl in Hk.
  assert (k <> "name" /\ k <> "birthday" /\ k <> "email" /\ k <> "phone" /\
          k <> "address" /\ k <> "preferred_contact")
    as (H1 & H2 & H3 & H4 & H5 & H6) by (repeat split; intros ->; tauto).
  unfold validate_all, insert_customer, getitem.
  rewrite !(lookup_insert_ne fields k) by assumption.
  split; reflexivity.
Qed.

Lemma extra_keys_ignored_witness :
  validate_all (<["id" := "99"]> ana) = validate_all ana /\
  insert_customer env_ok (<["id" := "99"]> ana) (Some empty_table) =
    insert_customer env_ok ana (Some empty_table).
Proof.
  apply (extra_keys_ignored env_ok ana (Some empty_table) "id" "99").
  simpl. intros H. repeat destruct H as [H|H]; try discriminate H. exact H.
Defined.

(** ** More on [strip] and the validators *)

Lemma string_app_assoc (a b c : string) : (a ++ b) ++ c = a ++ b ++ c.
Proof.
  induction a as [|x a IH]; [reflexivity|].
  change (String x ((a ++ b) ++ c) = String x (a ++ b ++ c)). rewrite IH.
  reflexivity.
Qed.

Lemma all_chars_app p a b :
  all_chars p (a ++ b) = all_chars p a && all_chars p b.
Proof.
  induction a as [|x a IH]; [reflexivity|].
  change (p x && all_chars p (a ++ b) = p x && all_chars p a && all_chars p b).
  rewrite IH, andb_assoc. reflexivity.
Qed.

Lemma lstrip_blank s : all_chars isspace s = true -> lstrip s = "".
Proof.
  induction s as [|a s IH]; simpl; [reflexivity|].
  intros [Ha Hs]%andb_true_iff. rewrite Ha. auto.
Qed.

Lemma rstrip_blank s : all_chars isspace s = true -> rstrip s = "".
Proof.
  induction s as [|a s IH]; simpl; [reflexivity|].
  intros [Ha Hs]%andb_true_iff. rewrite (IH Hs), Ha. reflexivity.
Qed.

Lemma lstrip_app_blank l s : all_chars isspace l = true -> lstrip (l ++ s) = lstrip s.
Proof.
  induction l as [|a l IH]; [reflexivity|]. simpl.
  intros [Ha Hl]%andb_true_iff.
  change (String a l ++ s) with (String a (l ++ s)). simpl. rewrite Ha. auto.
Qed.

Lemma rstrip_app_blank s r : all_chars isspace r = true -> rstrip (s ++ r) = rstrip s.
Proof.
  intros Hr. induction s as [|a s IH]; [apply rstrip_blank, Hr|].
  change (String a s ++ r) with (String a (s ++ r)). simpl. rewrite IH.
  reflexivity.
Qed.

(** The middle of a string between two runs of blanks, if it has no blank
    at either end, is what [strip] returns. *)
Lemma strip_unique l t r :
  all_chars isspace l = true -> all_chars isspace r = true -> trimmed t ->
  strip (l ++ t ++ r) = t.
Proof.
  intros Hl Hr [Hf Hlast]. unfold strip. rewrite (lstrip_app_blank l _ Hl).
  destruct t as [|a t].
  - change ("" ++ r) with r. rewrite (lstrip_blank r Hr). reflexivity.
  - change (String a t ++ r) with (String a (t ++ r)). simpl.
    rewrite (Hf a eq_refl).
    change (String a (t ++ r)) with (String a t ++ r).
    rewrite (rstrip_app_blank _ r Hr). apply rstrip_id, Hlast.
Qed.

Lemma strip_app_blank s r : all_chars isspace r = true -> strip (s ++ r) = strip s.
Proof.
  intros Hr. destruct (strip_decompose s) as (l & r0 & Hs & Hl & Hr0).
  rewrite Hs at 1. rewrite !string_app_assoc.
  apply strip_unique; [exact Hl| |apply strip_trimmed].
  rewrite all_chars_app, Hr0, Hr. reflexivity.
Qed.

Lemma strip_empty_iff s : strip s = "" <-> all_chars isspace s = true.
Proof.
  split.
  - intros H. destruct (strip_decompose s) as (l & r & Hs & Hl & Hr).
    rewrite H in Hs. rewrite Hs, all_chars_app, Hl. exact Hr.
  - intros H. unfold strip. rewrite (lstrip_blank s H). reflexivity.
Qed.

(** X8: the name validator and the address validator accept a string
    exactly when it has a character that is not whitespace. *)
Theorem validate_name_nonblank s :
  (validate_name s = true <-> all_chars isspace s = false) /\
  (validate_address s = true <-> all_chars isspace s = false).
Proof.
  assert (forall x, (0 <? String.length (strip x))%nat = true <->
                    all_chars isspace x = false) as H.
  { intros x. rewrite Nat.ltb_lt, <- not_true_iff_false, <- strip_empty_iff.
    destruct (strip x); simpl; split; intros; try lia; congruence. }
  split; apply H.
Qed.

(** X9: for name, birthday, email, phone and address, the verdict on the
    trimmed value is the verdict on the raw value: what [insert_customer]
    stores passes exactly when what the user typed does. *)
Theorem validators_see_through_strip s :
  validate_name (strip s) = validate_name s /\
  validate_birthday (strip s) = validate_birthday s /\
  validate_email (strip s) = validate_email s /\
  validate_phone (strip s) = validate_phone s /\
  validate_address (strip s) = validate_address s.
Proof.
  repeat split.
  - apply validate_name_strip.
  - apply validate_birthday_strip.
  - apply validate_email_strip.
  - apply validate_phone_strip.
  - apply validate_address_strip.
Qed.

(** X10: a birthday the validator accepts is read by [strptime] as a day
    that exists: a year from 1 to 9999, a month from 1 to 12 and a day of
    that month, 29 February in leap years only. *)
Theorem validate_birthday_real_day s :
  validate_birthday s = true ->
  exists y m d, strptime (strip s) = Ok (y, m, d) /\
    1 <= y <= 9999 /\ 1 <= m <= 12 /\ 1 <= d <= days_in_month y m /\
    (m = 2 -> d = 29 -> is_leap y = true).
Proof.
  intros H. destruct (validate_birthday_calendar s H)
    as (y & m & d & Hs & Hy & Hm & Hd).
  exists y, m, d. unfold MINYEAR, MAXYEAR in Hy.
  repeat split; try tauto; try lia.
  intros -> ->. unfold days_in_month in Hd. simpl in Hd.
  destruct (is_leap y); [reflexivity|]. simpl in Hd. lia.
Qed.

Lemma validate_birthday_real_day_witness :
  exists y m d, strptime (strip " 2000-02-29 ") = Ok (y, m, d) /\
    1 <= y <= 9999 /\ 1 <= m <= 12 /\ 1 <= d <= days_in_month y m /\
    (m = 2 -> d = 29 -> is_leap y = true).
Proof. apply (validate_birthday_real_day " 2000-02-29 "). reflexivity. Defined.

(** ** The form *)

(** X11: [get_form_data] returns a mapping with exactly the six keys;
    the address is the text of the widget with the blanks at its ends
    removed, so the newline the widget appends goes no further. *)
Theorem get_form_data_six_keys self :
  has_fields (get_form_data self) (name_var self) (bday_var self)
    (email_var self) (phone_var self) (strip (address_text self))
    (pref_var self) /\
  (forall k, is_Some (get_form_data self !! k) <-> In k field_keys).
Proof.
  split.
  - unfold address_text_get.
    pose proof (get_form_data_fields self) as H. unfold address_text_get in H.
    rewrite strip_app_blank in H by reflexivity. exact H.
  - intros k. unfold get_form_data, field_keys. simpl. split.
    + intros H.
      destruct (decide ("name" = k)); [auto|].
      destruct (decide ("birthday" = k)); [auto|].
      destruct (decide ("email" = k)); [auto|].
      destruct (decide ("phone" = k)); [auto 10|].
      destruct (decide ("address" = k)); [auto 10|].
      destruct (decide ("preferred_contact" = k)); [auto 10|].
      rewrite !lookup_insert_ne, lookup_empty in H by assumption.
      destruct H as [? H]. discriminate H.
    + intros H. repeat destruct H as [<-|H]; try contradiction;
        simplify_map_eq; eauto.
Qed.

(** The three ways [on_submit] can end. *)
Lemma on_submit_cases env self db :
  (exists msg,
     validate_all (get_form_data self) = Ok (false, msg) /\
     on_submit env self db =
       (self, db, Ok (showerror "Validation Error" msg))) \/
  (validate_all (get_form_data self) = Ok (true, "") /\
   exists t, db = Some t /\
     on_submit env self db =
       (clear_form self,
        Some {| rows := rows t ++
                  [customers.mk (next_rowid t) (strip (name_var self))
                     (strip (bday_var self)) (strip (email_var self))
                     (strip (phone_var self)) (strip (address_text self))
                     (pref_var self) (CURRENT_TIMESTAMP env)];
                seq := next_rowid t |},
        Ok (showinfo "Success" "Customer information saved."))) \/
  (validate_all (get_form_data self) = Ok (true, "") /\
   exists m,
     on_submit env self db =
       (self, db,
        Ok (showerror "Database Error"
              ("Could not save data:" ++ newline ++ m)))).
Proof.
  pose proof (get_form_data_fields self) as Hf.
  destruct (validate_all_verdict _ _ _ _ _ _ _ Hf)
    as (ok & msg & Hv & _ & Hmsg & _).
  unfold on_submit. rewrite Hv. destruct ok; simpl.
  - right. rewrite (proj1 Hmsg eq_refl) in *.
    destruct (insert_customer_cases env _ db _ _ _ _ _ _ Hf)
      as [(t & -> & _ & ->)|(m & ->)].
    + left. split; [reflexivity|]. exists t. split; [reflexivity|].
      unfold new_row. rewrite strip_idempotent.
      unfold address_text_get. rewrite strip_app_blank by reflexivity.
      reflexivity.
    + right. split; [reflexivity|]. exists m. reflexivity.
  - left. exists msg. split; reflexivity.
Qed.

(** X12: [on_submit] lets no exception escape and does one of three
    things.  Validation fails: the reason is shown, form and store are as
    before.  The row is saved: it holds the trimmed texts of the widgets,
    the chosen contact, the next id and the clock's time; "Success" is
    shown and the form is cleared.  The database raises: "Database Error"
    is shown with the text of the error, form and store are as before. *)
Theorem on_submit_outcomes env self db :
  (exists msg,
     validate_all (get_form_data self) = Ok (false, msg) /\
     on_submit env self db =
       (self, db, Ok (showerror "Validation Error" msg))) \/
  (validate_all (get_form_data self) = Ok (true, "") /\
   exists t, db = Some t /\
     on_submit env self db =
       (clear_form self,
        Some {| rows := rows t ++
                  [customers.mk (next_rowid t) (strip (name_var self))
                     (strip (bday_var self)) (strip (email_var self))
                     (strip (phone_var self)) (strip (address_text self))
                     (pref_var self) (CURRENT_TIMESTAMP env)];
                seq := next_rowid t |},
        Ok (showinfo "Success" "Customer information saved."))) \/
  (validate_all (get_form_data self) = Ok (true, "") /\
   exists m,
     on_submit env self db =
       (self, db,
        Ok (showerror "Database Error"
              ("Could not save data:" ++ newline ++ m)))).
Proof. apply on_submit_cases. Qed.

(** X13: pressing Submit again right after a save does not insert the
    record a second time: the form was cleared, so the second press is
    rejected for the missing name and the store stays as it is. *)
Theorem on_submit_twice env env' self db self' db' :
  on_submit env self db =
    (self', db', Ok (showinfo "Success" "Customer information saved.")) ->
  on_submit env' self' db' =
    (self', db',
     Ok (showerror "Validation Error" "Please enter the customer's name.")).
Proof.
  intros H.
  destruct (on_submit_cases env self db)
    as [(msg & _ & H1)|[(_ & t & _ & H1)|(_ & m & H1)]];
    rewrite H1 in H; try discriminate H.
  injection H as <- _. reflexivity.
Qed.

Lemma on_submit_twice_witness :
  on_submit env_ok (on_submit env_ok form_ana (Some empty_table)).1.1
    (on_submit env_ok form_ana (Some empty_table)).1.2 =
    ((on_submit env_ok form_ana (Some empty_table)).1.1,
     (on_submit env_ok form_ana (Some empty_table)).1.2,
     Ok (showerror "Validation Error" "Please enter the customer's name.")).
Proof.
  apply (on_submit_twice env_ok env_ok form_ana (Some empty_table)).
  reflexivity.
Defined.

(** ** The store *)

(** X14: [insert_customer] only appends.  The rows that were in the table
    stay, unchanged and in order; at most one row is added, and none when
    the call raises; the recorded largest id never goes down; a file
    without the table stays without it. *)
Theorem insert_customer_append_only env fields db :
  match db with
  | None => (insert_customer env fields db).1 = None
  | Some t =>
      exists t' added,
        (insert_customer env fields db).1 = Some t' /\
        rows t' = (rows t ++ added)%list /\ (length added <= 1)%nat /\
        seq t <= seq t' /\
        (forall x, (insert_customer env fields db).2 = Raise x -> t' = t)
  end.
Proof.
  destruct (insert_customer env fields db) as [db' [v|x]] eqn:Hi.
  - apply insert_customer_ok_inv in Hi
      as (_ & t & n & b & e & p & a & c & _ & -> & _ & ->).
    eexists _, [_]. simpl. split; [reflexivity|]. split; [reflexivity|].
    split; [simpl; lia|]. split; [simpl; unfold next_rowid; lia|].
    discriminate.
  - apply insert_customer_raise in Hi as ->. destruct db as [t|]; [|reflexivity].
    exists t, []. simpl. rewrite app_nil_r. repeat split; auto; lia.
Qed.

(** X15: if the ids in the table are pairwise distinct, they still are
    after any sequence of [insert_customer] calls. *)
Theorem primary_key_preserved calls db :
  NoDup (ids db) -> NoDup (ids (insert_all calls db).1).
Proof.
  intros Hnd. destruct (insert_all_spec calls db) as (Hs & Hf & Hi & _).
  rewrite Hi. apply NoDup_app. split; [exact Hnd|]. split.
  - intros i Hin Hin'. rewrite Forall_forall in Hf.
    pose proof (ids_below_high db) as Hb. rewrite Forall_forall in Hb.
    specialize (Hf i Hin'). specialize (Hb i Hin). lia.
  - apply StronglySorted_lt_NoDup, Hs.
Qed.

Lemma primary_key_preserved_witness :
  NoDup (ids (insert_all [(env_ok, ana); (env_ok, padded)]
                (Some {| rows := [customers.mk 5 "a" "b" "c" "d" "e" "Mail" "t"];
                         seq := 9 |})).1).
Proof.
  apply primary_key_preserved. simpl. repeat constructor. intros H.
  apply list_elem_of_In in H. destruct H.
Defined.

(** ** The email pattern *)

Lemma app_empty_l (s : string) : "" ++ s = s.
Proof. reflexivity. Qed.

Lemma app_cons_l a (s1 s2 : string) : String a s1 ++ s2 = String a (s1 ++ s2).
Proof. reflexivity. Qed.

Section Accepts.
Context {A : Type}.

Lemma rmatch_cat r1 r2 s pos g (k : string -> nat -> groups -> option A) :
  rmatch (Cat r1 r2) s pos g k =
  rmatch r1 s pos g (fun s1 pos1 g1 => rmatch r2 s1 pos1 g1 k).
Proof. reflexivity. Qed.

(** The greedy loop tries every split: it succeeds exactly when some
    run of class characters can be taken so that the rest succeeds. *)
Lemma rstar_accepts p s : forall pos (k : string -> nat -> option A),
  is_Some (rstar p s pos k) <->
  exists s1 s2, s = s1 ++ s2 /\ all_chars p s1 = true /\
    is_Some (k s2 (pos + String.length s1)%nat).
Proof.
  induction s as [|a s IH]; intros pos k; simpl.
  - split.
    + intros H. exists "", "". rewrite Nat.add_0_r. auto.
    + intros (s1 & s2 & Hs & _ & Hk). destruct s1; [|rewrite app_cons_l in Hs; discriminate Hs].
      rewrite app_empty_l in Hs. subst s2. rewrite Nat.add_0_r in Hk. exact Hk.
  - destruct (p a) eqn:Hp.
    + split.
      * intros H. destruct (rstar p s (S pos) k) eqn:Hr.
        -- destruct (proj1 (IH (S pos) k)) as (s1 & s2 & -> & Hs1 & Hk);
             [rewrite Hr; eauto|].
           exists (String a s1), s2. simpl. rewrite Hp, Hs1.
           rewrite Nat.add_succ_r. auto.
        -- exists "", (String a s). rewrite Nat.add_0_r. auto.
      * intros (s1 & s2 & Hs & Hs1 & Hk). destruct s1 as [|b s1].
        -- rewrite app_empty_l in Hs. subst s2. rewrite Nat.add_0_r in Hk.
           destruct (rstar p s (S pos) k); [eauto|exact Hk].
        -- rewrite app_cons_l in Hs. injection Hs as <- ->. simpl in Hs1.
           apply andb_true_iff in Hs1 as [_ Hs1].
           simpl in Hk. rewrite Nat.add_succ_r in Hk.
           assert (is_Some (rstar p (s1 ++ s2) (S pos) k)) as [x ->]; [|eauto].
           apply IH. eauto.
    + split.
      * intros H. exists "", (String a s). rewrite Nat.add_0_r. auto.
      * intros (s1 & s2 & Hs & Hs1 & Hk). destruct s1 as [|b s1].
        -- rewrite app_empty_l in Hs. subst s2. rewrite Nat.add_0_r in Hk. exact Hk.
        -- rewrite app_cons_l in Hs. injection Hs as <- _. simpl in Hs1. rewrite Hp in Hs1.
           discriminate Hs1.
Qed.

Lemma plus_accepts p s pos g (k : string -> nat -> groups -> option A) :
  is_Some (rmatch (ClassPlus p) s pos g k) <->
  exists s1 s2, s = s1 ++ s2 /\ s1 <> "" /\ all_chars p s1 = true /\
    is_Some (k s2 (pos + String.length s1)%nat g).
Proof.
  simpl. destruct s as [|a s].
  - split; [intros [? [=]]|].
    intros (s1 & s2 & Hs & Hne & _). destruct s1; [congruence|rewrite app_cons_l in Hs; discriminate Hs].
  - destruct (p a) eqn:Hp.
    + rewrite rstar_accepts. split.
      * intros (s1 & s2 & -> & Hs1 & Hk). exists (String a s1), s2. simpl.
        rewrite Hp, Hs1, Nat.add_succ_r. auto.
      * intros (s1 & s2 & Hs & Hne & Hs1 & Hk).
        destruct s1 as [|b s1]; [congruence|]. rewrite app_cons_l in Hs. injection Hs as <- ->.
        simpl in Hs1, Hk. apply andb_true_iff in Hs1 as [_ Hs1].
        rewrite Nat.add_succ_r in Hk. eauto.
    + split; [intros [? [=]]|].
      intros (s1 & s2 & Hs & Hne & Hs1 & _).
      destruct s1 as [|b s1]; [congruence|]. rewrite app_cons_l in Hs. injection Hs as <- _.
      simpl in Hs1. rewrite Hp in Hs1. discriminate Hs1.
Qed.

Lemma chr_accepts c s pos g (k : string -> nat -> groups -> option A) :
  is_Some (rmatch (chr c) s pos g k) <->
  exists s', s = String c s' /\ is_Some (k s' (S pos) g).
Proof.
  simpl. destruct s as [|a s].
  - split; [intros [? [=]]|intros (? & [=] & _)].
  - destruct (Ascii.eqb c a) eqn:E.
    + apply Ascii.eqb_eq in E as ->. split; [eauto|].
      intros (s' & [= ->] & Hk). exact Hk.
    + apply Ascii.eqb_neq in E. split; [intros [? [=]]|].
      intros (s' & [= -> _] & _). congruence.
Qed.

Lemma eos_accepts s pos g (k : string -> nat -> groups -> option A) :
  is_Some (rmatch Eos s pos g k) <->
  (s = "" \/ s = newline) /\ is_Some (k s pos g).
Proof.
  simpl. destruct s as [|a [|b s]].
  - split; [auto|tauto].
  - destruct (Ascii.eqb a "010") eqn:E.
    + apply Ascii.eqb_eq in E as ->. split; [auto|tauto].
    + apply Ascii.eqb_neq in E. split; [intros [? [=]]|].
      intros [[[=]|[= ->]] _]. congruence.
  - split; [intros [? [=]]|]. intros [[[=]|[=]] _].
Qed.

End Accepts.

(** What [EMAIL_RE.match] accepts. *)
Lemma email_re_accepts x :
  is_Some (re_match EMAIL_RE x) <->
  exists l d t e,
    x = l ++ "@" ++ d ++ "." ++ t ++ e /\
    l <> "" /\ d <> "" /\ t <> "" /\
    all_chars not_at_space l = true /\ all_chars not_at_space d = true /\
    all_chars not_at_space t = true /\ (e = "" \/ e = newline).
Proof.
  unfold re_match, EMAIL_RE. rewrite rmatch_cat.
  change (rmatch Bos x 0%nat [] ?k) with (k x 0%nat (@nil (string * string))).
  cbv beta. rewrite rmatch_cat, plus_accepts.
  setoid_rewrite rmatch_cat. setoid_rewrite chr_accepts.
  setoid_rewrite rmatch_cat. setoid_rewrite plus_accepts.
  setoid_rewrite rmatch_cat. setoid_rewrite chr_accepts.
  setoid_rewrite rmatch_cat. setoid_rewrite plus_accepts.
  setoid_rewrite eos_accepts.
  split.
  - intros (l & ? & -> & Hl & Hal & ? & -> & d & ? & -> & Hd & Had
            & ? & -> & t & e & -> & Ht & Hat & He & _).
    exists l, d, t, e. auto 10.
  - intros (l & d & t & e & -> & Hl & Hd & Ht & Hal & Had & Hat & He).
    exists l, ("@" ++ d ++ "." ++ t ++ e). repeat split; auto.
    exists (d ++ "." ++ t ++ e). split; [reflexivity|].
    exists d, ("." ++ t ++ e). repeat split; auto.
    exists (t ++ e). split; [reflexivity|].
    exists t, e. repeat split; eauto.
Qed.

Lemma last_char_app a b : b <> "" -> last_char (a ++ b) = last_char b.
Proof.
  intros Hb. induction a as [|x a IH]; [reflexivity|].
  rewrite app_cons_l. simpl. rewrite IH.
  destruct (a ++ b) eqn:E; [|reflexivity].
  destruct a; [rewrite app_empty_l in E; congruence|discriminate E].
Qed.

Lemma validate_email_iff s :
  validate_email s = true <->
  exists l d t,
    strip s = l ++ "@" ++ d ++ "." ++ t /\
    l <> "" /\ d <> "" /\ t <> "" /\
    all_chars not_at_space l = true /\ all_chars not_at_space d = true /\
    all_chars not_at_space t = true.
Proof.
  assert (validate_email s = true <-> is_Some (re_match EMAIL_RE (strip s))) as ->.
  { unfold validate_email. destruct (re_match EMAIL_RE (strip s)).
    - split; eauto.
    - split; [discriminate|intros [? [=]]]. }
  rewrite email_re_accepts. split.
  - intros (l & d & t & e & Hs & Hl & Hd & Ht & Hal & Had & Hat & [->| ->]).
    + rewrite append_empty_r in Hs. eauto 10.
    + exfalso. destruct (strip_trimmed s) as [_ Hlast].
      specialize (Hlast "010"%char). rewrite Hs in Hlast.
      rewrite <- !string_app_assoc in Hlast.
      rewrite last_char_app in Hlast by discriminate.
      specialize (Hlast eq_refl). discriminate Hlast.
  - intros (l & d & t & Hs & H). exists l, d, t, "".
    rewrite append_empty_r. tauto.
Qed.

(** X16: the email validator accepts a string exactly when its trimmed
    value is a local part, "@", a domain, "." and a last part, each of
    the three non-empty and free of "@" and of whitespace. *)
Theorem validate_email_shape s :
  validate_email s = true <->
  exists l d t,
    strip s = l ++ "@" ++ d ++ "." ++ t /\
    l <> "" /\ d <> "" /\ t <> "" /\
    all_chars not_at_space l = true /\ all_chars not_at_space d = true /\
    all_chars not_at_space t = true.
Proof. apply validate_email_iff. Qed.

Lemma count_char_app c a b :
  count_char c (a ++ b) = (count_char c a + count_char c b)%nat.
Proof.
  induction a as [|x a IH]; [reflexivity|].
  rewrite app_cons_l. simpl. rewrite IH. lia.
Qed.

Lemma not_at_space_facts s :
  all_chars not_at_space s = true ->
  count_char "@" s = 0%nat /\ all_chars (fun c => negb (isspace c)) s = true.
Proof.
  induction s as [|a s IH]; simpl; [auto|].
  intros [Ha Hs]%andb_true_iff. destruct (IH Hs) as [-> ->].
  unfold not_at_space in Ha. apply negb_true_iff, orb_false_iff in Ha as [Ha1 Ha2].
  rewrite Ha1, Ha2. auto.
Qed.

Lemma string_length_app (a b : string) :
  String.length (a ++ b) = (String.length a + String.length b)%nat.
Proof.
  induction a as [|x a IH]; [reflexivity|].
  rewrite app_cons_l. simpl. rewrite IH. reflexivity.
Qed.

(** X17: an email the validator accepts has, once trimmed, exactly one
    "@", no whitespace anywhere, and at least five characters. *)
Theorem validate_email_one_at s :
  validate_email s = true ->
  count_char "@" (strip s) = 1%nat /\
  all_chars (fun c => negb (isspace c)) (strip s) = true /\
  (5 <= String.length (strip s))%nat.
Proof.
  intros (l & d & t & -> & Hl & Hd & Ht & Hal & Had & Hat)%validate_email_iff.
  destruct (not_at_space_facts l Hal) as [Cl Sl].
  destruct (not_at_space_facts d Had) as [Cd Sd].
  destruct (not_at_space_facts t Hat) as [Ct St].
  rewrite !count_char_app, !all_chars_app, Cl, Cd, Ct, Sl, Sd, St.
  repeat split.
  rewrite !string_length_app. simpl.
  destruct l; [congruence|]. destruct d; [congruence|]. destruct t; [congruence|].
  simpl. lia.
Qed.

Lemma validate_email_one_at_witness :
  count_char "@" (strip " ana.li@mail.example.org ") = 1%nat /\
  all_chars (fun c => negb (isspace c)) (strip " ana.li@mail.example.org ") = true /\
  (5 <= String.length (strip " ana.li@mail.example.org "))%nat.
Proof. apply (validate_email_one_at " ana.li@mail.example.org "). reflexivity. Defined.

(** ** The phone rule looks at digits only *)

Lemma filter_chars_nondigits s :
  all_chars (fun c => negb (isdecimal c)) s = true ->
  filter_chars isdecimal s = "".
Proof.
  induction s as [|a s IH]; simpl; [reflexivity|].
  intros [Ha Hs]%andb_true_iff. apply negb_true_iff in Ha. rewrite Ha. auto.
Qed.

(** X18: the phone validator checks no format.  Text put before or after
    a phone it accepts never makes it reject, and text without digits
    put there, such as blanks, brackets or words, never changes the
    verdict. *)
Theorem validate_phone_digits_only a s b :
  (validate_phone s = true -> validate_phone (a ++ s ++ b) = true) /\
  (all_chars (fun c => negb (isdecimal c)) a = true ->
   all_chars (fun c => negb (isdecimal c)) b = true ->
   validate_phone (a ++ s ++ b) = validate_phone s).
Proof.
  unfold validate_phone. rewrite !re_sub_nondigits, !filter_chars_app.
  split.
  - rewrite !Nat.leb_le, !string_length_app. lia.
  - intros Ha Hb.
    rewrite (filter_chars_nondigits a Ha), (filter_chars_nondigits b Hb).
    rewrite append_empty_r. reflexivity.
Qed.

Lemma validate_phone_digits_only_witness :
  validate_phone ("call " ++ "555-123-4567" ++ " after 5") = true /\
  validate_phone ("tel: (" ++ "555-1234" ++ ")") = validate_phone "555-1234".
Proof.
  split.
  - apply (proj1 (validate_phone_digits_only "call " "555-123-4567" " after 5")).
    reflexivity.
  - apply (proj2 (validate_phone_digits_only "tel: (" "555-1234" ")"));
      reflexivity.
Defined.

(** ** Saving *)



Lemma insert_all_consecutive calls : forall db,
  (insert_all calls db).2 =
  map (fun i => high db + Z.of_nat i)
      (List.seq 1%nat (length (insert_all calls db).2)).
Proof.
  induction calls as [|[env fields] rest IH]; intros db; simpl; [reflexivity|].
  pose proof (insert_customer_step env fields db) as Hstep.
  destruct (insert_customer env fields db) as [db1 r].
  specialize (IH db1). destruct (insert_all rest db1) as [db2 assigned].
  simpl in *.
  destruct Hstep as [(-> & Hl & Hh & _)|(x & -> & ->)].
  - rewrite Hl. simpl. f_equal.
    rewrite IH at 1. rewrite <- (seq_shift (length assigned) 1), map_map, Hh.
    apply map_ext. intros i. lia.
  - simpl. exact IH.
Qed.

(** X20: in a table that [init_db] has just created, the calls of
    [insert_customer] that succeed get the ids 1, 2, 3, ... in call
    order, with no gap for the calls that failed in between. *)
Theorem fresh_table_ids calls :
  (insert_all calls (Some {| rows := []; seq := 0 |})).2 =
  map Z.of_nat
    (List.seq 1%nat (length (insert_all calls (Some {| rows := []; seq := 0 |})).2)).
Proof.
  rewrite (insert_all_consecutive calls) at 1. apply map_ext. intros i.
  simpl. lia.
Qed.

(** ** Dates in the canonical form *)

(** An integer in a range is one of the integers of the range. *)
Lemma in_range (n : Z) (lo len : nat) :
  Z.of_nat lo <= n < Z.of_nat lo + Z.of_nat len ->
  In n (map Z.of_nat (List.seq lo len)).
Proof.
  intros H. apply in_map_iff. exists (Z.to_nat n).
  split; [lia|]. apply in_seq. lia.
Qed.

Ltac range_cases n lo len :=
  let H := fresh "Hrange" in
  pose proof (in_range n lo len ltac:(simpl; lia)) as H;
  vm_compute in H;
  repeat (destruct H as [<-|H]); [..|contradiction H].

Lemma digit_char_facts n :
  0 <= n <= 9 ->
  isdecimal (digit_char n) = true /\ isspace (digit_char n) = false /\
  digit_value (digit_char n) = n.
Proof.
  intros H. range_cases n 0%nat 10%nat; repeat split; reflexivity.
Qed.

Lemma year_group c1 c2 c3 c4 rest {A}
    (k : string -> nat -> groups -> option A) :
  isdecimal c1 = true -> isdecimal c2 = true ->
  isdecimal c3 = true -> isdecimal c4 = true ->
  rmatch format_regex (String c1 (String c2 (String c3 (String c4 rest))))
    0%nat [] k =
  rmatch after_year rest 4%nat
    [("Y", String c1 (String c2 (String c3 (String c4 ""))))] k.
Proof.
  intros H1 H2 H3 H4. unfold format_regex, after_year, re_Y, digit.
  rewrite rmatch_cat. simpl. rewrite H1, H2, H3, H4. reflexivity.
Qed.

Lemma int_year c1 c2 c3 c4 :
  isdecimal c1 = true -> isdecimal c2 = true ->
  isdecimal c3 = true -> isdecimal c4 = true ->
  int (String c1 (String c2 (String c3 (String c4 "")))) =
  Ok (1000 * digit_value c1 + 100 * digit_value c2 +
      10 * digit_value c3 + digit_value c4).
Proof.
  intros H1 H2 H3 H4. unfold int.
  assert (isspace c1 = false) as S1.
  { destruct (isspace c1) eqn:E; [|reflexivity].
    rewrite (isspace_not_decimal _ E) in H1. discriminate H1. }
  assert (isspace c4 = false) as S4.
  { destruct (isspace c4) eqn:E; [|reflexivity].
    rewrite (isspace_not_decimal _ E) in H4. discriminate H4. }
  rewrite strip_id.
  - simpl. rewrite H1, H2, H3, H4. f_equal. lia.
  - split; simpl; intros c [= <-]; assumption.
Qed.

(** [strptime] on a four-digit year followed by a month and a day text
    that the rest of the pattern takes whole. *)
Lemma strptime_iso_core c1 c2 c3 c4 mm dd m d :
  isdecimal c1 = true -> isdecimal c2 = true ->
  isdecimal c3 = true -> isdecimal c4 = true ->
  (forall ys, rmatch after_year ("-" ++ mm ++ "-" ++ dd) 4%nat [("Y", ys)]
                (fun _ pos g => Some (pos, g)) =
              Some (10%nat, [("d", dd); ("m", mm); ("Y", ys)])) ->
  String.length mm = 2%nat -> String.length dd = 2%nat ->
  int mm = Ok m -> int dd = Ok d ->
  strptime (String c1 (String c2 (String c3 (String c4
              ("-" ++ mm ++ "-" ++ dd))))) =
  date (1000 * digit_value c1 + 100 * digit_value c2 +
        10 * digit_value c3 + digit_value c4) m d.
Proof.
  intros H1 H2 H3 H4 Hre Lm Ld Im Id. unfold strptime, re_match.
  rewrite year_group by assumption. rewrite Hre.
  assert (String.length (String c1 (String c2 (String c3 (String c4
            ("-" ++ mm ++ "-" ++ dd))))) = 10%nat) as ->.
  { change ("-" ++ mm ++ "-" ++ dd) with (String "-" (mm ++ String "-" dd)).
    simpl. rewrite string_length_app, Lm. simpl. rewrite Ld. reflexivity. }
  simpl. rewrite (int_year c1 c2 c3 c4) by assumption.
  rewrite Im, Id. reflexivity.
Qed.

Lemma days_in_month_le y m : 1 <= m <= 12 -> days_in_month y m <= 31.
Proof.
  intros H. unfold days_in_month.
  range_cases m 1%nat 12%nat; simpl; try destruct (is_leap y); simpl; lia.
Qed.

Ltac month_day_case :=
  split; [intros ys; vm_compute; reflexivity|];
  repeat split; reflexivity.

(** The zero-padded texts of a month and a day are taken whole by the
    month and day groups and read back by [int]. *)
Lemma month_day_texts m d :
  1 <= m <= 12 -> 1 <= d <= 31 ->
  (forall ys,
     rmatch after_year ("-" ++ two_digits m ++ "-" ++ two_digits d) 4%nat
       [("Y", ys)] (fun _ pos g => Some (pos, g)) =
     Some (10%nat, [("d", two_digits d); ("m", two_digits m); ("Y", ys)])) /\
  String.length (two_digits m) = 2%nat /\
  String.length (two_digits d) = 2%nat /\
  int (two_digits m) = Ok m /\ int (two_digits d) = Ok d.
Proof.
  intros Hm Hd.
  range_cases m 1%nat 12%nat; range_cases d 1%nat 31%nat; month_day_case.
Qed.

Lemma canonical_date y m d :
  1 <= y <= 9999 -> 1 <= m <= 12 -> 1 <= d <= days_in_month y m ->
  strip (isoformat y m d) = isoformat y m d /\
  strptime (isoformat y m d) = Ok (y, m, d).
Proof.
  intros Hy Hm Hd.
  pose proof (days_in_month_le y m Hm) as Hle.
  destruct (digit_char_facts (y / 1000)) as (D1 & S1 & V1);
    [Z.to_euclidean_division_equations; lia|].
  destruct (digit_char_facts (y / 100 mod 10)) as (D2 & _ & V2);
    [Z.to_euclidean_division_equations; lia|].
  destruct (digit_char_facts (y / 10 mod 10)) as (D3 & _ & V3);
    [Z.to_euclidean_division_equations; lia|].
  destruct (digit_char_facts (y mod 10)) as (D4 & _ & V4);
    [Z.to_euclidean_division_equations; lia|].
  destruct (digit_char_facts (d mod 10)) as (_ & Sd & _);
    [Z.to_euclidean_division_equations; lia|].
  destruct (month_day_texts m d) as (Hre & Lm & Ld & Im & Id); [lia|lia|].
  split.
  - apply strip_id. split.
    + intros c [= <-]. exact S1.
    + cbv [isoformat two_digits String.append last_char].
      intros c [= <-]. exact Sd.
  - unfold isoformat.
    rewrite (strptime_iso_core _ _ _ _ _ _ m d D1 D2 D3 D4 Hre Lm Ld Im Id).
    rewrite V1, V2, V3, V4.
    replace (1000 * (y / 1000) + 100 * (y / 100 mod 10) +
             10 * (y / 10 mod 10) + y mod 10) with y
      by (Z.to_euclidean_division_equations; lia).
    unfold date, MINYEAR, MAXYEAR.
    rewrite (proj2 (Z.leb_le 1 y)), (proj2 (Z.leb_le y 9999)) by lia.
    rewrite (proj2 (Z.leb_le 1 m)), (proj2 (Z.leb_le m 12)) by lia.
    rewrite (proj2 (Z.leb_le 1 d)), (proj2 (Z.leb_le d _)) by lia.
    reflexivity.
Qed.

(** X21: every day of the calendar, years 1 to 9999, written as
    YYYY-MM-DD with leading zeros, is accepted by the birthday validator,
    and [strptime] reads back the same year, month and day. *)
Theorem canonical_date_accepted y m d :
  1 <= y <= 9999 -> 1 <= m <= 12 -> 1 <= d <= days_in_month y m ->
  validate_birthday (isoformat y m d) = true /\
  strptime (strip (isoformat y m d)) = Ok (y, m, d).
Proof.
  intros Hy Hm Hd. destruct (canonical_date y m d Hy Hm Hd) as [Hs Hp].
  unfold validate_birthday. rewrite Hs, Hp. auto.
Qed.

Lemma canonical_date_accepted_witness :
  validate_birthday (isoformat 2024 2 29) = true /\
  strptime (strip (isoformat 2024 2 29)) = Ok (2024, 2, 29).
Proof. apply (canonical_date_accepted 2024 2 29); vm_compute; intuition discriminate. Defined.
